(** * UHAS student e-mail generator: [email-gen.py]

    A shallow embedding of the two pure functions of [email-gen.py],
    [generate_email] and [get_school_from_programme], of the default
    [school_mapping], of the two sidebar handlers, of the column checks and
    of the per-row lambdas, together with the properties the specification
    states about them and further properties read off the code.

    Modelling conventions.
    - A Python [str] is a [string] whose characters are the code points
      0..255 (the Latin-1 block).  On that block [str.lower] acts character
      by character and stays inside the block, so [lower] below is exact
      there; code points above 255 are outside the model.
    - A Python [int] is a [Z].
    - A value that may be missing ([None] or a pandas NaN) is an [option];
      a spreadsheet cell handed to [str(...)] is a [pyval].
    - A [dict] is an association list in insertion order whose keys are
      pairwise distinct.
    - A function that may raise returns an [exc]. *)

From Stdlib Require Import ZArith List Bool Ascii String Lia.
Import ListNotations.

Local Open Scope string_scope.
Local Open Scope Z_scope.

(** ** Exceptions *)

Inductive exn : Type :=
| IndexError.

Inductive exc (A : Type) : Type :=
| Ok (a : A)
| Raise (e : exn).

Arguments Ok {A} a.
Arguments Raise {A} e.

Definition bind {A B : Type} (m : exc A) (k : A -> exc B) : exc B :=
  match m with
  | Ok a => k a
  | Raise e => Raise e
  end.

Notation "x <- m ;; k" := (bind m (fun x => k))
  (at level 61, m at next level, right associativity).

(** ** The string builtins the program uses *)

Module PyStr.

(** [ord(c)] as an integer. *)
Definition ord (c : ascii) : Z := Z.of_N (N_of_ascii c).

(** [chr(n)], for [0 <= n < 256]. *)
Definition chr (n : Z) : ascii := ascii_of_N (Z.to_N n).

Definition in_range (lo hi n : Z) : bool := (lo <=? n) && (n <=? hi).

(** The code points of the block that have a lowercase mapping:
    [A]..[Z], and the accented capitals U+00C0..U+00DE except the
    multiplication sign U+00D7.  Each maps 32 places up. *)
Definition is_upper (c : ascii) : bool :=
  let n := ord c in
  in_range 65 90 n || in_range 192 214 n || in_range 216 222 n.

Definition lower_char (c : ascii) : ascii :=
  if is_upper c then chr (ord c + 32) else c.

(** [s.lower()] *)
Fixpoint lower (s : string) : string :=
  match s with
  | EmptyString => EmptyString
  | String c s' => String (lower_char c) (lower s')
  end.

(** The characters [str.strip()] removes: TAB, LF, VT, FF, CR, the four
    separators U+001C..U+001F, the space, NEL U+0085 and the no-break space
    U+00A0. *)
Definition is_space (c : ascii) : bool :=
  let n := ord c in
  in_range 9 13 n || in_range 28 32 n || (n =? 133) || (n =? 160).

(** [s.lstrip()] *)
Fixpoint lstrip (s : string) : string :=
  match s with
  | EmptyString => EmptyString
  | String c s' => if is_space c then lstrip s' else s
  end.

(** [s.rstrip()] *)
Fixpoint rstrip (s : string) : string :=
  match s with
  | EmptyString => EmptyString
  | String c s' =>
      match rstrip s' with
      | EmptyString => if is_space c then EmptyString else String c EmptyString
      | r => String c r
      end
  end.

(** [s.strip()] *)
Definition strip (s : string) : string := rstrip (lstrip s).

(** Truth value of a string in a condition: non-empty. *)
Definition truthy (s : string) : bool :=
  match s with
  | EmptyString => false
  | String _ _ => true
  end.

(** [s[n:]] for a non-negative [n] given as a [nat]. *)
Fixpoint drop (n : nat) (s : string) : string :=
  match n, s with
  | O, _ => s
  | S _, EmptyString => EmptyString
  | S n', String _ s' => drop n' s'
  end.

Definition len (s : string) : Z := Z.of_nat (String.length s).

(** [s[i:]]: a negative [i] counts from the end, and the start is clamped
    into [0 .. len(s)], so the slice never raises. *)
Definition slice_from (s : string) (i : Z) : string :=
  let start := if i <? 0 then Z.max 0 (len s + i) else Z.min i (len s) in
  drop (Z.to_nat start) s.

(** [s[i]]: a one-character string, or [IndexError] when [i] is out of
    range. *)
Definition getitem (s : string) (i : Z) : exc string :=
  let j := if i <? 0 then len s + i else i in
  if (0 <=? j) && (j <? len s) then
    match drop (Z.to_nat j) s with
    | String c _ => Ok (String c EmptyString)
    | EmptyString => Raise IndexError
    end
  else Raise IndexError.

(** [s.startswith(p)] *)
Fixpoint startswith (p s : string) : bool :=
  match p, s with
  | EmptyString, _ => true
  | String _ _, EmptyString => false
  | String a p', String b s' => Ascii.eqb a b && startswith p' s'
  end.

(** [sub in s]: [sub] occurs in [s] as a contiguous run. *)
Fixpoint contains (sub s : string) : bool :=
  startswith sub s ||
  match s with
  | EmptyString => false
  | String _ s' => contains sub s'
  end.

(** [s.replace(old, new)] scans from the left and replaces the
    non-overlapping occurrences of [old].  [skip] counts the characters of
    an occurrence already replaced that are still to be passed over. *)
Fixpoint replace_from (old new : string) (skip : nat) (s : string) : string :=
  match s with
  | EmptyString => EmptyString
  | String c s' =>
      match skip with
      | S k => replace_from old new k s'
      | O =>
          if startswith old s
          then new ++ replace_from old new (String.length old - 1) s'
          else String c (replace_from old new O s')
      end
  end.

(** With an empty [old], Python puts [new] before every character and at
    the end. *)
Fixpoint interleave (new s : string) : string :=
  match s with
  | EmptyString => new
  | String c s' => new ++ String c (interleave new s')
  end.

Definition replace (s old new : string) : string :=
  match old with
  | EmptyString => interleave new s
  | String _ _ => replace_from old new O s
  end.

(** [str(n)] for an [int]: the decimal digits, most significant first,
    after a minus sign when [n] is negative.  [digits] produces the digits
    of a non-negative [n] in front of [acc]; [fuel] bounds the number of
    digits after the first. *)
Definition digit_char (d : Z) : ascii := chr (48 + d).

Fixpoint digits (fuel : nat) (n : Z) (acc : string) : string :=
  let acc' := String (digit_char (n mod 10)) acc in
  match fuel with
  | O => acc'
  | S fuel' => if n / 10 =? 0 then acc' else digits fuel' (n / 10) acc'
  end.

Definition str_nonneg (n : Z) : string :=
  digits (Z.to_nat (Z.log2 n)) n EmptyString.

Definition str_int (n : Z) : string :=
  if n <? 0 then String "-" (str_nonneg (- n)) else str_nonneg n.

(** [int(s)] for a string of decimal digits; used to check that [str_int]
    loses no digit. *)
Definition digit_value (c : ascii) : Z := ord c - 48.

Fixpoint int_of_digits_from (acc : Z) (s : string) : Z :=
  match s with
  | EmptyString => acc
  | String c s' => int_of_digits_from (10 * acc + digit_value c) s'
  end.

Definition int_of_digits (s : string) : Z := int_of_digits_from 0 s.

End PyStr.

Import PyStr.

(** ** Values handed to [str(...)] *)

(** A spreadsheet cell as pandas delivers it to the classifier: text, a
    missing cell ([None] or the float NaN), an integer, a boolean, or any
    other object, which is carried with the text [str] gives for it. *)
Inductive pyval : Type :=
| PStr (s : string)
| PNone
| PNaN
| PInt (n : Z)
| PBool (b : bool)
| PObject (text : string).

(** [str(v)] *)
Definition str (v : pyval) : string :=
  match v with
  | PStr s => s
  | PNone => "None"
  | PNaN => "nan"
  | PInt n => str_int n
  | PBool true => "True"
  | PBool false => "False"
  | PObject text => text
  end.

(** ** [generate_email] *)

(** [middle] is [None] when [pd.notna(middle)] is false. *)
Definition generate_email (first : string) (middle : option string)
    (last dept : string) (year : Z) (student_type : string) : exc string :=
  c <- getitem first 0 ;;
  let first_letter := lower c in
  middle_letter <-
    match middle with
    | Some m =>
        if truthy (strip m) then (c <- getitem m 0 ;; Ok (lower c))
        else Ok EmptyString
    | None => Ok EmptyString
    end ;;
  let lastname := replace (lower last) " " EmptyString in
  let suffix :=
    if String.eqb (lower student_type) "sandwich"
    then slice_from (str_int year) (-2) ++ "sw"
    else EmptyString in
  Ok (first_letter ++ middle_letter ++ lastname ++ suffix ++ "@"
      ++ lower dept ++ ".uhas.edu.gh").

(** ** [get_school_from_programme] *)

(** The mapping from school code to programme keywords, in insertion
    order. *)
Definition mapping : Type := list (string * list string).

Definition keys (m : mapping) : list string := map fst m.

(** The condition of the loop body:
    [any(prog.lower() in str(programme).lower() for prog in progs)]. *)
Definition any_prog_in (programme : pyval) (progs : list string) : bool :=
  existsb (fun prog => contains (lower prog) (lower (str programme))) progs.

(** The [for] loop over [mapping.items()] with its early [return]. *)
Fixpoint get_school_from_programme (programme : pyval) (m : mapping)
  : string :=
  match m with
  | [] => "unknown"
  | (school, progs) :: rest =>
      if any_prog_in programme progs then school
      else get_school_from_programme programme rest
  end.

(** ** Session state *)

(** The initial value of [st.session_state.school_mapping]. *)
Definition school_mapping_default : mapping :=
  [ ("sonam", ["Nursing"; "Midwifery"; "Public Health Nursing";
               "Master of Philosophy"]);
    ("sph", ["Public Health"; "Health Promotion"; "Disease Control";
             "Environmental Health"; "Nutrition"]);
    ("sahs", ["Dietetics"; "Medical Laboratory Sciences";
              "Orthotics and Prosthetics"; "Physiotherapy"]) ].

(** [k in d] *)
Definition dict_mem (k : string) (m : mapping) : bool :=
  existsb (String.eqb k) (keys m).

(** [d[k] = v]: the value is replaced in place when the key is present,
    and the pair goes to the end otherwise. *)
Fixpoint dict_set (k : string) (v : list string) (m : mapping) : mapping :=
  match m with
  | [] => [(k, v)]
  | (k', v') :: rest =>
      if String.eqb k k' then (k', v) :: rest
      else (k', v') :: dict_set k v rest
  end.

(** What the sidebar shows after a button press. *)
Inductive feedback : Type :=
| Success (msg : string)
| Warning (msg : string)
| Silent.

(** The body of [if st.sidebar.button("Add New School"):], run on the text
    of the two input boxes; it returns the updated mapping. *)
Definition add_new_school (new_school new_school_prog : string)
    (m : mapping) : mapping * feedback :=
  if truthy new_school && truthy new_school_prog then
    if negb (dict_mem new_school m) then
      (dict_set new_school [new_school_prog] m,
       Success ("Added new school '" ++ new_school ++ "' with programme '"
                ++ new_school_prog ++ "'"))
    else (m, Warning "School already exists.")
  else (m, Silent).

(** One classification made against the session's mapping: the call reads
    the mapping and hands it back untouched. *)
Definition classify_in_session (programme : pyval) (m : mapping)
  : string * mapping :=
  (get_school_from_programme programme m, m).

(** ** The specification's vocabulary

    The definitions of this part follow the words of the specification;
    the theorems compare them with the functions above. *)

(** "The first character of [s]", as a string; empty when [s] is. *)
Definition first_char (s : string) : string :=
  match s with
  | EmptyString => EmptyString
  | String c _ => String c EmptyString
  end.

(** "[s] with all spaces removed". *)
Fixpoint remove_spaces (s : string) : string :=
  match s with
  | EmptyString => EmptyString
  | String c s' =>
      if Ascii.eqb c " " then remove_spaces s' else String c (remove_spaces s')
  end.

(** "[s] is made of whitespace only" (true of the empty string). *)
Fixpoint all_space (s : string) : bool :=
  match s with
  | EmptyString => true
  | String c s' => is_space c && all_space s'
  end.

(** "[a] equals [b] case-insensitively". *)
Definition eqb_ci (a b : string) : bool := String.eqb (lower a) (lower b).

(** "[kw] is a case-insensitive substring of [text]". *)
Definition ci_substring (kw text : string) : Prop :=
  exists pre post, lower text = pre ++ lower kw ++ post.

(** "The keyword list [progs] contains a keyword that is a case-insensitive
    substring of [programme]". *)
Definition school_matches (programme : pyval) (progs : list string) : Prop :=
  exists kw, In kw progs /\ ci_substring kw (str programme).

(** "The last two digits of [year]": the tens and units digits of its
    magnitude, or its only digit when there is just one. *)
Definition last_two_digits (year : Z) : string :=
  let a := Z.abs year in
  if 10 <=? a
  then String (digit_char (a / 10 mod 10))
         (String (digit_char (a mod 10)) EmptyString)
  else String (digit_char a) EmptyString.

(** The last two characters of the decimal form of [year]: as
    [last_two_digits], except that a negative one-digit year keeps its
    sign. *)
Definition year_tail (year : Z) : string :=
  if (year <? 0) && (-10 <? year)
  then String "-" (String (digit_char (- year)) EmptyString)
  else last_two_digits year.

(** The middle initial as the specification words it: present as soon as
    the middle name is there and non-empty. *)
Definition middle_initial_nonempty (middle : option string) : string :=
  match middle with
  | Some m => lower (first_char m)
  | None => EmptyString
  end.

(** The middle initial when a middle name of whitespace only counts as
    absent. *)
Definition middle_initial (middle : option string) : string :=
  match middle with
  | Some m => if all_space m then EmptyString else lower (first_char m)
  | None => EmptyString
  end.

(** The address [{f}{m}{lastname}{suffix}@{department}.uhas.edu.gh], given
    the middle initial [m] and the year digits [yy] of a sandwich
    student. *)
Definition email_format (first m last dept yy student_type : string)
  : string :=
  let f := lower (first_char first) in
  let lastname := remove_spaces (lower last) in
  let suffix :=
    if eqb_ci student_type "Sandwich" then yy ++ "sw" else EmptyString in
  f ++ m ++ lastname ++ suffix ++ "@" ++ lower dept ++ ".uhas.edu.gh".

(** The address exactly as the specification describes it. *)
Definition email_as_specified (first : string) (middle : option string)
    (last dept : string) (year : Z) (student_type : string) : string :=
  email_format first (middle_initial_nonempty middle) last dept
    (last_two_digits year) student_type.

(** ** The rest of the script: sidebar, column checks, rows *)

(** Errors of the code around the two functions: a missing dictionary key
    or column label, or an exception raised inside [generate_email]. *)
Inductive error : Type :=
| KeyError (key : string)
| Raised (e : exn).

Inductive res (A : Type) : Type :=
| Done (a : A)
| Failed (e : error).

Arguments Done {A} a.
Arguments Failed {A} e.

Definition res_bind {A B : Type} (m : res A) (k : A -> res B) : res B :=
  match m with
  | Done a => k a
  | Failed e => Failed e
  end.

Notation "x <~ m ;; k" := (res_bind m (fun x => k))
  (at level 61, m at next level, right associativity).

(** A call of [generate_email] seen from its caller. *)
Definition lift_exc {A : Type} (m : exc A) : res A :=
  match m with
  | Ok a => Done a
  | Raise e => Failed (Raised e)
  end.

(** *** "Add Programme" *)

(** [d[k]] *)
Fixpoint dict_get (k : string) (m : mapping) : res (list string) :=
  match m with
  | [] => Failed (KeyError k)
  | (k', v) :: rest => if String.eqb k k' then Done v else dict_get k rest
  end.

(** [x in xs] for a list of strings. *)
Definition list_mem (x : string) (xs : list string) : bool :=
  existsb (String.eqb x) xs.

(** The body of [if st.sidebar.button("Add Programme"):], run on the
    school chosen in the select box and the text of the input box.  The
    keyword list of the school is extended in place. *)
Definition add_programme (selected_school new_prog : string) (m : mapping)
  : res (mapping * feedback) :=
  if truthy new_prog then
    progs <~ dict_get selected_school m ;;
    if negb (list_mem new_prog progs) then
      progs' <~ dict_get selected_school m ;;
      Done (dict_set selected_school (progs' ++ [new_prog])%list m,
            Success ("Added '" ++ new_prog ++ "' to " ++ selected_school))
    else Done (m, Warning "Programme already exists.")
  else Done (m, Silent).

(** *** Column checks *)

(** [next((c for c in df.columns if "programme" in c.lower()), None)] *)
Fixpoint first_programme_col (columns : list string) : option string :=
  match columns with
  | [] => None
  | c :: rest =>
      if contains "programme" (lower c) then Some c
      else first_programme_col rest
  end.

(** The programme column the script goes on with; [None] when
    [if not programme_col:] reports the error and stops. *)
Definition detect_programme_col (columns : list string) : option string :=
  match first_programme_col columns with
  | Some c => if negb (truthy c) then None else Some c
  | None => None
  end.

(** Where the three name columns come from. *)
Inductive name_source : Type :=
| FromFullName (name_col : string)
| FromSplitColumns
| NoNameColumns.

(** The [if]/[elif] on the name columns. *)
Definition name_columns (columns : list string) : name_source :=
  if list_mem "Fullname" columns || list_mem "Name" columns then
    FromFullName (if list_mem "Fullname" columns then "Fullname" else "Name")
  else if negb (list_mem "Firstname" columns && list_mem "Lastname" columns)
  then NoNameColumns
  else FromSplitColumns.

(** *** Splitting a full name *)

Definition cons_head (c : ascii) (parts : list string) : list string :=
  match parts with
  | p :: ps => String c p :: ps
  | [] => [String c EmptyString]
  end.

(** [s.split(sep, maxsplit)] for a one-character [sep] and
    [maxsplit >= 0]: at most [maxsplit] cuts, made at the leftmost
    occurrences of [sep]. *)
Fixpoint split (sep : ascii) (maxsplit : nat) (s : string) : list string :=
  match s with
  | EmptyString => [EmptyString]
  | String c s' =>
      match maxsplit with
      | O => [s]
      | S k =>
          if Ascii.eqb c sep then EmptyString :: split sep k s'
          else cons_head c (split sep maxsplit s')
      end
  end.

(** What [.str.split(' ', n=2)] does to one full name. *)
Definition split_name (name : string) : list string := split " " 2 name.

(** [sep.join(parts)] *)
Fixpoint join (sep : string) (parts : list string) : string :=
  match parts with
  | [] => EmptyString
  | [p] => p
  | p :: ps => p ++ sep ++ join sep ps
  end.

(** "[c] does not occur in [s]". *)
Fixpoint free_of (c : ascii) (s : string) : bool :=
  match s with
  | EmptyString => true
  | String a s' => negb (Ascii.eqb a c) && free_of c s'
  end.

(** *** One row of the roster *)

(** A row as [df.apply(..., axis=1)] hands it over: the cell of each
    column label, labels pairwise distinct. *)
Definition row : Type := list (string * pyval).

(** [row[col]] *)
Fixpoint row_get (r : row) (col : string) : res pyval :=
  match r with
  | [] => Failed (KeyError col)
  | (c, v) :: rest => if String.eqb col c then Done v else row_get rest col
  end.

(** [df[col] = ...] seen on one row: an existing column keeps its place, a
    new one goes last. *)
Fixpoint row_set (col : string) (v : pyval) (r : row) : row :=
  match r with
  | [] => [(col, v)]
  | (c, v') :: rest =>
      if String.eqb col c then (c, v) :: rest
      else (c, v') :: row_set col v rest
  end.

(** [pd.notna(v)]: [None] and NaN are missing.  The other missing markers
    of pandas (NaT, NA) are not among the cells modelled. *)
Definition notna (v : pyval) : bool :=
  match v with
  | PNone | PNaN => false
  | _ => true
  end.

(** The lambda of [df["Department"] = df[programme_col].apply(...)] on
    one row. *)
Definition with_department (programme_col : string) (m : mapping) (r : row)
  : res row :=
  x <~ row_get r programme_col ;;
  Done (row_set "Department" (PStr (get_school_from_programme x m)) r).

(** The lambda of [df["Email"] = df.apply(..., axis=1)]: the arguments are
    evaluated from left to right, and the condition on the middle name
    before its text. *)
Definition row_email (r : row) (admission_year : Z) (student_type : string)
  : res string :=
  firstname <~ row_get r "Firstname" ;;
  middle_cell <~ row_get r "Middlename" ;;
  middle <~ (if notna middle_cell
             then (v <~ row_get r "Middlename" ;; Done (str v))
             else Done EmptyString) ;;
  lastname <~ row_get r "Lastname" ;;
  department <~ row_get r "Department" ;;
  lift_exc (generate_email (str firstname) (Some middle) (str lastname)
              (str department) admission_year student_type).

(** A row through both steps. *)
Definition process_row (programme_col : string) (m : mapping)
    (admission_year : Z) (student_type : string) (r : row) : res string :=
  r' <~ with_department programme_col m r ;;
  row_email r' admission_year student_type.

(** *** The mappings a session can hold *)

(** The session starts from the default mapping, and only the two sidebar
    handlers change it. *)
Inductive reachable : mapping -> Prop :=
| reach_start : reachable school_mapping_default
| reach_add_school (code kw : string) (m : mapping) :
    reachable m -> reachable (fst (add_new_school code kw m))
| reach_add_programme (school prog : string) (m m' : mapping)
    (fb : feedback) :
    reachable m -> add_programme school prog m = Done (m', fb) ->
    reachable m'.

(** School codes are pairwise distinct and non-empty; no keyword is empty
    or listed twice under one school. *)
Definition well_formed (m : mapping) : Prop :=
  NoDup (keys m)
  /\ Forall (fun entry =>
               fst entry <> EmptyString
               /\ NoDup (snd entry)
               /\ Forall (fun kw => kw <> EmptyString) (snd entry)) m.

(** [m] has the schools of [m0] at its start, in the same order, each
    with the keywords it has in [m0] at the start of its list. *)
Fixpoint extends (m0 m : mapping) : Prop :=
  match m0, m with
  | [], _ => True
  | _ :: _, [] => False
  | e0 :: m0', e :: m' =>
      fst e = fst e0
      /\ (exists extra, snd e = (snd e0 ++ extra)%list)
      /\ extends m0' m'
  end.

(** *** Sample rows *)

(** A row of a roster with a missing middle name and a department column of
    its own. *)
Definition row_ama : row :=
  [ ("Firstname", PStr "Ama"); ("Middlename", PNaN);
    ("Lastname", PStr "Mensah"); ("Programme", PStr "BSc Nursing");
    ("Department", PStr "Registry") ].

(** A row whose first-name cell is missing. *)
Definition row_no_first : row :=
  [ ("Firstname", PNone); ("Middlename", PStr "Kofi");
    ("Lastname", PStr "Mensah"); ("Department", PStr "sph") ].

(** A row of a roster that has no middle-name column. *)
Definition row_two_names : row :=
  [ ("Firstname", PStr "Efua"); ("Lastname", PStr "Osei");
    ("Programme Of Study", PStr "Physiotherapy") ].

(** ** First checks on concrete inputs *)

Example str_int_2024 : str_int 2024 = "2024".
Proof. reflexivity. Qed.

Example str_int_0 : str_int 0 = "0".
Proof. reflexivity. Qed.

Example str_int_neg : str_int (-305) = "-305".
Proof. reflexivity. Qed.

Example slice_short : slice_from "7" (-2) = "7".
Proof. reflexivity. Qed.

Example strip_both : strip "  a b  " = "a b".
Proof. reflexivity. Qed.

Example replace_word : replace "aXYbXYXc" "XY" "-" = "a-b-Xc".
Proof. reflexivity. Qed.

Example lower_mixed : lower "BSc Nursing" = "bsc nursing".
Proof. reflexivity. Qed.

(** ** Lowercasing *)

Section Lowercase.

Lemma lower_char_idem (c : ascii) : lower_char (lower_char c) = lower_char c.
Proof. destruct c as [[] [] [] [] [] [] [] []]; reflexivity. Qed.

Lemma lower_idem (s : string) : lower (lower s) = lower s.
Proof.
  induction s as [|c s IH]; simpl.
  - reflexivity.
  - now rewrite lower_char_idem, IH.
Qed.

Lemma lower_app (a b : string) : lower (a ++ b) = lower a ++ lower b.
Proof.
  induction a as [|c a IH]; simpl.
  - reflexivity.
  - now rewrite IH.
Qed.


Lemma lower_remove_spaces (s : string) :
  lower (remove_spaces s) = remove_spaces (lower s).
Proof.
  induction s as [|c s IH]; simpl.
  - reflexivity.
  - destruct c as [[] [] [] [] [] [] [] []]; simpl; now rewrite IH.
Qed.

(** A decimal digit is its own lowercase. *)
Lemma lower_digit_char (d : Z) :
  0 <= d < 10 -> lower_char (digit_char d) = digit_char d.
Proof.
  intros H.
  assert (d = 0 \/ d = 1 \/ d = 2 \/ d = 3 \/ d = 4 \/ d = 5 \/ d = 6
          \/ d = 7 \/ d = 8 \/ d = 9) as Hd by lia.
  repeat (destruct Hd as [-> | Hd]; [reflexivity|]).
  now subst.
Qed.

End Lowercase.

(** ** Substring search *)

Section Substring.

Lemma startswith_spec (p s : string) :
  startswith p s = true <-> exists post, s = p ++ post.
Proof.
  revert s; induction p as [|a p IH]; intros s; simpl.
  - split; [intros _; now exists s | reflexivity].
  - destruct s as [|b s].
    + split; [discriminate | intros [post H]; discriminate].
    + rewrite andb_true_iff, Ascii.eqb_eq, IH. split.
      * intros [-> [post ->]]. now exists post.
      * intros [post H]. injection H as -> ->. split; [reflexivity|].
        now exists post.
Qed.

(** [contains] decides the occurrence of [sub] somewhere in [s]. *)
Lemma contains_spec (sub s : string) :
  contains sub s = true <-> exists pre post, s = pre ++ sub ++ post.
Proof.
  induction s as [|c s IH].
  - simpl. rewrite orb_false_r, startswith_spec. split.
    + intros [post H]. now exists EmptyString, post.
    + intros [pre [post H]]. destruct pre; [|discriminate].
      now exists post.
  - cbn [contains]. rewrite orb_true_iff, startswith_spec, IH. split.
    + intros [[post H] | [pre [post H]]].
      * now exists EmptyString, post.
      * exists (String c pre), post. simpl. now rewrite H.
    + intros [pre [post H]]. destruct pre as [|c' pre].
      * left. now exists post.
      * right. simpl in H. injection H as _ H. now exists pre, post.
Qed.

Lemma contains_ci (kw text : string) :
  contains (lower kw) (lower text) = true <-> ci_substring kw text.
Proof. unfold ci_substring. apply contains_spec. Qed.

Lemma any_prog_in_spec (programme : pyval) (progs : list string) :
  any_prog_in programme progs = true <-> school_matches programme progs.
Proof.
  unfold any_prog_in, school_matches. rewrite existsb_exists.
  split; intros [kw [Hin H]]; exists kw; split; trivial;
    now apply contains_ci.
Qed.

Lemma any_prog_in_false (programme : pyval) (progs : list string) :
  any_prog_in programme progs = false <-> ~ school_matches programme progs.
Proof.
  rewrite <- any_prog_in_spec. destruct (any_prog_in programme progs).
  - split; [discriminate | intros H; now elim H].
  - split; [intros _ H; discriminate | reflexivity].
Qed.

End Substring.

(** ** Stripping, replacing, indexing *)

Section Builtins.

Lemma rstrip_head_nonspace (c : ascii) (s : string) :
  is_space c = false -> truthy (rstrip (String c s)) = true.
Proof.
  intros H. simpl. destruct (rstrip s); [rewrite H|]; reflexivity.
Qed.

(** [s.strip()] is empty exactly when [s] holds whitespace only. *)
Lemma truthy_strip (s : string) : truthy (strip s) = negb (all_space s).
Proof.
  unfold strip. induction s as [|c s IH].
  - reflexivity.
  - cbn [lstrip all_space]. destruct (is_space c) eqn:Hc.
    + exact IH.
    + now rewrite rstrip_head_nonspace.
Qed.

(** Replacing the one-character string [" "] by nothing removes the
    spaces. *)
Lemma replace_space (s : string) :
  replace s " " EmptyString = remove_spaces s.
Proof.
  unfold replace. induction s as [|c s IH].
  - reflexivity.
  - cbn [replace_from startswith remove_spaces String.length Nat.sub].
    rewrite andb_true_r, Ascii.eqb_sym.
    destruct (Ascii.eqb c " "); simpl; now rewrite IH.
Qed.

Lemma getitem_0 (s : string) :
  s <> EmptyString -> getitem s 0 = Ok (first_char s).
Proof.
  destruct s as [|c s]; [congruence|]. intros _.
  unfold getitem, len. cbn [String.length Z.ltb Z.compare Z.leb andb].
  rewrite Nat2Z.inj_succ.
  destruct (0 <? Z.succ (Z.of_nat (String.length s))) eqn:H.
  - reflexivity.
  - apply Z.ltb_ge in H. lia.
Qed.

Lemma getitem_0_empty : getitem EmptyString 0 = Raise IndexError.
Proof. reflexivity. Qed.

Lemma all_space_false_nonempty (s : string) :
  all_space s = false -> s <> EmptyString.
Proof. destruct s; [discriminate | discriminate]. Qed.

Lemma drop_app (p q : string) : drop (String.length p) (p ++ q) = q.
Proof. induction p as [|c p IH]; [now destruct q | exact IH]. Qed.

Lemma length_app (p q : string) :
  String.length (p ++ q) = (String.length p + String.length q)%nat.
Proof. induction p as [|c p IH]; simpl; [reflexivity | now rewrite IH]. Qed.

Lemma app_assoc_str (p q r : string) : (p ++ q) ++ r = p ++ q ++ r.
Proof. induction p as [|c p IH]; simpl; [reflexivity | now rewrite IH]. Qed.

(** [s[-2:]] of a string that ends in two given characters. *)
Lemma slice_last_two (p : string) (a b : ascii) :
  slice_from (p ++ String a (String b EmptyString)) (-2)
  = String a (String b EmptyString).
Proof.
  unfold slice_from, len. rewrite length_app. cbn [String.length Z.ltb Z.compare].
  replace (Z.max 0 (Z.of_nat (String.length p + 2) + -2))
    with (Z.of_nat (String.length p)) by lia.
  rewrite Nat2Z.id. apply drop_app.
Qed.

End Builtins.

(** ** The decimal form of an integer *)

Section Decimal.

Lemma digits_acc (fuel : nat) (n : Z) (acc : string) :
  digits fuel n acc = digits fuel n EmptyString ++ acc.
Proof.
  revert n acc; induction fuel as [|fuel IH]; intros n acc; simpl.
  - reflexivity.
  - destruct (n / 10 =? 0); [reflexivity|].
    rewrite IH. rewrite (IH _ (String _ EmptyString)).
    now rewrite app_assoc_str.
Qed.

(** A number below ten prints as its digit; a larger one ends in its tens
    and units digits. *)
Lemma str_nonneg_shape (n : Z) :
  0 <= n ->
  (n < 10 /\ str_nonneg n = String (digit_char n) EmptyString)
  \/ (10 <= n /\
      exists p, str_nonneg n
                = p ++ String (digit_char (n / 10 mod 10))
                         (String (digit_char (n mod 10)) EmptyString)).
Proof.
  intros Hn. unfold str_nonneg. destruct (Z_lt_ge_dec n 10) as [Hlt | Hge].
  - left. split; [exact Hlt|].
    assert (n / 10 = 0) as Hq by (apply Z.div_small; lia).
    assert (n mod 10 = n) as Hr by (apply Z.mod_small; lia).
    destruct (Z.to_nat (Z.log2 n)); simpl; rewrite ?Hq, Hr; reflexivity.
  - right. split; [lia|].
    assert (3 <= Z.log2 n) as Hlog by (apply Z.log2_le_pow2; simpl; lia).
    destruct (Z.to_nat (Z.log2 n)) as [|fuel] eqn:Hfuel; [lia|].
    assert (n / 10 <> 0) as Hq.
    { intros H. apply Z.div_small_iff in H; lia. }
    cbn [digits]. apply Z.eqb_neq in Hq. rewrite Hq.
    destruct fuel as [|fuel]; cbn [digits].
    + now exists EmptyString.
    + destruct (n / 10 / 10 =? 0).
      * now exists EmptyString.
      * rewrite digits_acc. eexists. reflexivity.
Qed.

Lemma str_nonneg_tail (n : Z) :
  0 <= n -> slice_from (str_nonneg n) (-2) = last_two_digits n.
Proof.
  intros Hn. unfold last_two_digits. rewrite Z.abs_eq by exact Hn.
  destruct (str_nonneg_shape n Hn) as [[Hlt ->] | [Hge [p ->]]].
  - destruct (10 <=? n) eqn:H; [apply Z.leb_le in H; lia | reflexivity].
  - destruct (10 <=? n) eqn:H; [|apply Z.leb_gt in H; lia].
    apply slice_last_two.
Qed.

(** [str(year)[-2:]], arithmetically. *)
Lemma str_int_tail (year : Z) :
  slice_from (str_int year) (-2) = year_tail year.
Proof.
  unfold str_int, year_tail. destruct (year <? 0) eqn:Hneg.
  - apply Z.ltb_lt in Hneg. cbn [andb].
    destruct (str_nonneg_shape (- year)) as [[Hlt ->] | [Hge [p ->]]];
      [lia | |].
    + destruct (-10 <? year) eqn:H; [reflexivity | apply Z.ltb_ge in H; lia].
    + destruct (-10 <? year) eqn:H; [apply Z.ltb_lt in H; lia|].
      unfold last_two_digits. rewrite Z.abs_neq by lia.
      destruct (10 <=? - year) eqn:H'; [|apply Z.leb_gt in H'; lia].
      apply (slice_last_two (String "-" p)).
  - apply Z.ltb_ge in Hneg. cbn [andb]. now apply str_nonneg_tail.
Qed.

Lemma lower_last_two_digits (year : Z) :
  lower (last_two_digits year) = last_two_digits year.
Proof.
  unfold last_two_digits. destruct (10 <=? Z.abs year) eqn:H; simpl.
  - rewrite !lower_digit_char; [reflexivity | |]; apply Z.mod_pos_bound; lia.
  - apply Z.leb_gt in H. rewrite lower_digit_char; [reflexivity | lia].
Qed.

Lemma lower_year_tail (year : Z) : lower (year_tail year) = year_tail year.
Proof.
  unfold year_tail. destruct ((year <? 0) && (-10 <? year)) eqn:H.
  - apply andb_true_iff in H as [H1 H2].
    apply Z.ltb_lt in H1. apply Z.ltb_lt in H2.
    simpl. rewrite lower_digit_char; [reflexivity | lia].
  - apply lower_last_two_digits.
Qed.

Lemma digit_value_char (d : Z) : 0 <= d < 10 -> digit_value (digit_char d) = d.
Proof.
  intros H.
  assert (d = 0 \/ d = 1 \/ d = 2 \/ d = 3 \/ d = 4 \/ d = 5 \/ d = 6
          \/ d = 7 \/ d = 8 \/ d = 9) as Hd by lia.
  repeat (destruct Hd as [-> | Hd]; [reflexivity|]).
  now subst.
Qed.

(** With [fuel] at least the binary logarithm of [n], [digits] writes [n]
    out in full: reading the result back gives [n]. *)
Lemma digits_value (fuel : nat) :
  forall (n : Z) (acc : string),
    0 <= n < 2 ^ (Z.of_nat fuel + 1) ->
    int_of_digits (digits fuel n acc) = int_of_digits_from n acc.
Proof.
  unfold int_of_digits.
  assert (forall n acc, 0 <= n < 10 ->
            int_of_digits_from 0 (String (digit_char (n mod 10)) acc)
            = int_of_digits_from n acc) as Hsmall.
  { intros n acc Hn. simpl. rewrite Z.mod_small by lia.
    now rewrite digit_value_char by lia. }
  induction fuel as [|fuel IH]; intros n acc Hn.
  - simpl in Hn. apply Hsmall. lia.
  - cbn [digits]. destruct (n / 10 =? 0) eqn:Hq.
    + apply Z.eqb_eq in Hq. apply Z.div_small_iff in Hq; [|lia].
      apply Hsmall. lia.
    + rewrite IH.
      * cbn [int_of_digits_from].
        rewrite digit_value_char by (apply Z.mod_pos_bound; lia).
        f_equal. rewrite (Z.div_mod n 10) at 3 by lia. reflexivity.
      * split; [apply Z.div_pos; lia|].
        apply Z.div_lt_upper_bound; [lia|].
        replace (Z.of_nat (S fuel) + 1) with (Z.succ (Z.of_nat fuel + 1))
          in Hn by lia.
        rewrite Z.pow_succ_r in Hn by lia. lia.
Qed.

Lemma str_nonneg_value (n : Z) : 0 <= n -> int_of_digits (str_nonneg n) = n.
Proof.
  intros Hn. unfold str_nonneg. rewrite digits_value; [reflexivity|].
  rewrite Z2Nat.id by apply Z.log2_nonneg.
  destruct (Z.eq_dec n 0) as [-> | Hnz]; [simpl; lia|].
  split; [exact Hn|].
  replace (Z.log2 n + 1) with (Z.succ (Z.log2 n)) by lia.
  apply Z.log2_spec. lia.
Qed.

End Decimal.

(** ** The classifier's loop and the mapping *)

Section Mapping.

Variable programme : pyval.

(** Departments without a matching keyword are passed over. *)
Lemma get_school_skip (before rest : mapping) :
  (forall school progs,
      In (school, progs) before -> ~ school_matches programme progs) ->
  get_school_from_programme programme (before ++ rest)%list
  = get_school_from_programme programme rest.
Proof.
  induction before as [|[school progs] before IH]; intros Hno; simpl.
  - reflexivity.
  - assert (any_prog_in programme progs = false) as ->.
    { apply any_prog_in_false. apply (Hno school). now left. }
    apply IH. intros s ps Hin. apply (Hno s). now right.
Qed.

(** The loop stops at a department with a matching keyword. *)
Lemma get_school_hit (school : string) (progs : list string) (rest : mapping) :
  school_matches programme progs ->
  get_school_from_programme programme ((school, progs) :: rest) = school.
Proof.
  intros H. simpl. apply any_prog_in_spec in H. now rewrite H.
Qed.

Lemma dict_mem_spec (k : string) (m : mapping) :
  dict_mem k m = true <-> In k (keys m).
Proof.
  unfold dict_mem. rewrite existsb_exists. split.
  - intros [k' [Hin Heq]]. apply String.eqb_eq in Heq. now subst.
  - intros Hin. exists k. split; [exact Hin | apply String.eqb_refl].
Qed.

(** Setting a key the mapping does not hold puts it last. *)
Lemma dict_set_fresh (k : string) (v : list string) (m : mapping) :
  ~ In k (keys m) -> dict_set k v m = (m ++ [(k, v)])%list.
Proof.
  induction m as [|[k' v'] m IH]; intros Hk; simpl.
  - reflexivity.
  - simpl in Hk. destruct (String.eqb k k') eqn:Heq.
    + apply String.eqb_eq in Heq. subst. elim Hk. now left.
    + rewrite IH; [reflexivity|]. intros H. apply Hk. now right.
Qed.

Lemma add_new_school_fresh (code kw : string) (m : mapping) :
  code <> EmptyString -> kw <> EmptyString -> ~ In code (keys m) ->
  fst (add_new_school code kw m) = (m ++ [(code, [kw])])%list.
Proof.
  intros Hc Hk Hfresh. unfold add_new_school.
  destruct code; [congruence|]. destruct kw; [congruence|]. cbn [truthy andb].
  destruct (dict_mem _ m) eqn:Hmem.
  - apply dict_mem_spec in Hmem. contradiction.
  - cbn [negb fst]. now apply dict_set_fresh.
Qed.

Lemma keys_app (m1 m2 : mapping) :
  keys (m1 ++ m2)%list = (keys m1 ++ keys m2)%list.
Proof. apply map_app. Qed.

(** The handler keeps the keys of the mapping pairwise distinct. *)
Lemma add_new_school_nodup (code kw : string) (m : mapping) :
  NoDup (keys m) -> NoDup (keys (fst (add_new_school code kw m))).
Proof.
  intros Hm. unfold add_new_school.
  destruct (truthy code && truthy kw); [|exact Hm].
  destruct (dict_mem code m) eqn:Hmem; [exact Hm|]. cbn [negb fst].
  assert (~ In code (keys m)) as Hfresh.
  { intros H. apply dict_mem_spec in H. congruence. }
  rewrite dict_set_fresh, keys_app by exact Hfresh.
  apply NoDup_app; [exact Hm | repeat constructor; intros [] |].
  intros k Hk [<- | []]. contradiction.
Qed.

End Mapping.

(** ** The shape of the generated address *)

Section Address.

Lemma lower_middle_initial (middle : option string) :
  lower (middle_initial middle) = middle_initial middle.
Proof.
  destruct middle as [m|]; [|reflexivity]. unfold middle_initial.
  destruct (all_space m); [reflexivity | apply lower_idem].
Qed.

(** An address built from a lowercase initial and lowercase year digits is
    lowercase throughout. *)
Lemma lower_email_format (first m last dept yy student_type : string) :
  lower m = m -> lower yy = yy ->
  lower (email_format first m last dept yy student_type)
  = email_format first m last dept yy student_type.
Proof.
  intros Hm Hyy. unfold email_format.
  assert (lower "@" = "@") as Hat by reflexivity.
  assert (lower ".uhas.edu.gh" = ".uhas.edu.gh") as Hdom by reflexivity.
  assert (lower "sw" = "sw") as Hsw by reflexivity.
  assert (forall b : bool,
            lower (if b then yy ++ "sw" else EmptyString)
            = if b then yy ++ "sw" else EmptyString) as Hsuf.
  { intros []; [now rewrite lower_app, Hyy, Hsw | reflexivity]. }
  rewrite !lower_app, Hsuf, Hat, Hdom, Hm, lower_remove_spaces.
  now rewrite !lower_idem.
Qed.

(** What [generate_email] returns on a non-empty first name. *)
Lemma generate_email_ok (first : string) (middle : option string)
    (last dept : string) (year : Z) (student_type : string) :
  first <> EmptyString ->
  generate_email first middle last dept year student_type
  = Ok (email_format first (middle_initial middle) last dept
          (year_tail year) student_type).
Proof.
  intros Hfirst. unfold generate_email.
  rewrite (getitem_0 first Hfirst). cbn [bind].
  assert (match middle with
          | Some m =>
              if truthy (strip m) then (c <- getitem m 0 ;; Ok (lower c))
              else Ok EmptyString
          | None => Ok EmptyString
          end = Ok (middle_initial middle)) as ->.
  { destruct middle as [m|]; [|reflexivity]. unfold middle_initial.
    rewrite truthy_strip. destruct (all_space m) eqn:Hm; [reflexivity|].
    cbn [negb]. now rewrite (getitem_0 m (all_space_false_nonempty m Hm)). }
  cbn [bind]. rewrite replace_space, str_int_tail. reflexivity.
Qed.

End Address.

(** ** The claims about [generate_email] *)

(** C1, as the code has it.  On a non-empty first name [generate_email]
    returns [{f}{m}{lastname}{suffix}@{department}.uhas.edu.gh], where [f]
    is the first character of the first name lowercased; [m] is the first
    character of the middle name lowercased when the middle name is present
    and holds a character that is not whitespace, and empty otherwise;
    [lastname] is the last name lowercased without its spaces; [suffix] is
    empty unless the student type equals "Sandwich" case-insensitively, and
    is then the last two characters of the decimal form of the year (its
    last two digits, or a minus sign and the digit for a year between -9
    and -1) followed by "sw"; and the department is lowercased. *)
Theorem generate_email_format (first : string) (middle : option string)
    (last dept : string) (year : Z) (student_type : string) :
  first <> EmptyString ->
  let f := lower (first_char first) in
  let m :=
    match middle with
    | Some mid => if all_space mid then EmptyString else lower (first_char mid)
    | None => EmptyString
    end in
  let lastname := remove_spaces (lower last) in
  let suffix :=
    if eqb_ci student_type "Sandwich" then year_tail year ++ "sw"
    else EmptyString in
  generate_email first middle last dept year student_type
  = Ok (f ++ m ++ lastname ++ suffix ++ "@" ++ lower dept ++ ".uhas.edu.gh").
Proof.
  intros Hfirst. cbv zeta. now rewrite generate_email_ok.
Qed.

Lemma generate_email_format_witness :
  "Ama" <> EmptyString /\
  generate_email "Ama" (Some "Kofi") "Mensah" "SPH" 2025 "sandwich"
  = Ok (lower (first_char "Ama")
        ++ (if all_space "Kofi" then EmptyString else lower (first_char "Kofi"))
        ++ remove_spaces (lower "Mensah")
        ++ (if eqb_ci "sandwich" "Sandwich" then year_tail 2025 ++ "sw"
            else EmptyString)
        ++ "@" ++ lower "SPH" ++ ".uhas.edu.gh").
Proof.
  split; [discriminate|].
  apply (generate_email_format "Ama" (Some "Kofi") "Mensah" "SPH" 2025
           "sandwich").
  discriminate.
Defined.

(** C1 as the specification words it fails twice: a middle name made of one
    space is non-empty but gives no initial, and the year -5 of a sandwich
    student leaves "-5", a sign and one digit, in the suffix. *)
Lemma generate_email_format_counterexample :
  (generate_email "John" (Some " ") "Doe" "sonam" 2024 "Regular"
   = Ok "jdoe@sonam.uhas.edu.gh"
   /\ email_as_specified "John" (Some " ") "Doe" "sonam" 2024 "Regular"
      = "j doe@sonam.uhas.edu.gh")
  /\ (generate_email "John" None "Doe" "sonam" (-5) "Sandwich"
      = Ok "jdoe-5sw@sonam.uhas.edu.gh"
      /\ email_as_specified "John" None "Doe" "sonam" (-5) "Sandwich"
         = "jdoe5sw@sonam.uhas.edu.gh")
  /\ ~ (forall first middle last dept year student_type,
          first <> EmptyString ->
          generate_email first middle last dept year student_type
          = Ok (email_as_specified first middle last dept year student_type)).
Proof.
  repeat split; try reflexivity.
  intros H.
  specialize (H "John" (Some " ") "Doe" "sonam" 2024 "Regular").
  discriminate H. discriminate.
Qed.

(** C3.  With an empty first name [generate_email] raises the index error
    of [first[0]], the specification's InputError, whatever the other
    arguments are. *)
Theorem generate_email_empty_first (middle : option string)
    (last dept : string) (year : Z) (student_type : string) :
  generate_email EmptyString middle last dept year student_type
  = Raise IndexError.
Proof. reflexivity. Qed.

(** C5.  The two worked examples of the specification. *)
Theorem generate_email_examples :
  generate_email "John" (Some EmptyString) "Doe" "sonam" 2024 "Regular"
  = Ok "jdoe@sonam.uhas.edu.gh"
  /\ generate_email "Ama" (Some "Kofi") "Mensah" "sph" 2025 "Sandwich"
     = Ok "akmensah25sw@sph.uhas.edu.gh".
Proof. split; reflexivity. Qed.

(** C7.  For non-empty first and last names, an empty middle name and the
    student type "Regular", nothing stands between the names and the "@":
    the local part is the first letter of the first name lowercased
    followed by the last name lowercased without its spaces. *)
Theorem regular_no_suffix (first last dept : string) (year : Z) :
  first <> EmptyString -> last <> EmptyString ->
  generate_email first (Some EmptyString) last dept year "Regular"
  = Ok (lower (first_char first) ++ remove_spaces (lower last)
        ++ "@" ++ lower dept ++ ".uhas.edu.gh").
Proof.
  intros Hfirst _. now rewrite generate_email_ok.
Qed.

Lemma regular_no_suffix_witness :
  "Efua" <> EmptyString /\ "Osei Tutu" <> EmptyString /\
  generate_email "Efua" (Some EmptyString) "Osei Tutu" "sahs" 2024 "Regular"
  = Ok (lower (first_char "Efua") ++ remove_spaces (lower "Osei Tutu")
        ++ "@" ++ lower "sahs" ++ ".uhas.edu.gh").
Proof.
  split; [discriminate|]. split; [discriminate|].
  apply (regular_no_suffix "Efua" "Osei Tutu" "sahs" 2024); discriminate.
Defined.

(** C10.  Whenever the first name is non-empty, [generate_email] returns an
    address that equals its own lowercasing, whatever the casing of the
    arguments. *)
Theorem generate_email_lowercase (first : string) (middle : option string)
    (last dept : string) (year : Z) (student_type : string) :
  first <> EmptyString ->
  exists email,
    generate_email first middle last dept year student_type = Ok email
    /\ lower email = email.
Proof.
  intros Hfirst. eexists. split.
  - now apply generate_email_ok.
  - apply lower_email_format.
    + apply lower_middle_initial.
    + apply lower_year_tail.
Qed.

Lemma generate_email_lowercase_witness :
  "AMA" <> EmptyString /\
  exists email,
    generate_email "AMA" (Some "KOFI") "MENSAH" "SPH" 2025 "SANDWICH"
    = Ok email
    /\ lower email = email.
Proof.
  split; [discriminate|].
  apply (generate_email_lowercase "AMA" (Some "KOFI") "MENSAH" "SPH" 2025
           "SANDWICH").
  discriminate.
Defined.

(** ** The claims about [get_school_from_programme] *)

(** C2.  The classifier returns the code of the first department, in the
    mapping's insertion order, one of whose keywords is a case-insensitive
    substring of the programme: every department before it has no such
    keyword.  When no department has one, it returns "unknown".  So of two
    departments that both match, the earlier one is returned. *)
Theorem get_school_first_match (programme : pyval) (m : mapping) :
  (exists before school progs after,
      m = (before ++ (school, progs) :: after)%list
      /\ (forall s ps, In (s, ps) before -> ~ school_matches programme ps)
      /\ school_matches programme progs
      /\ get_school_from_programme programme m = school)
  \/ ((forall s ps, In (s, ps) m -> ~ school_matches programme ps)
      /\ get_school_from_programme programme m = "unknown").
Proof.
  induction m as [|[school progs] m IH].
  - right. split; [intros s ps [] | reflexivity].
  - destruct (any_prog_in programme progs) eqn:Hany.
    + left. exists [], school, progs, m. repeat split.
      * intros s ps [].
      * now apply any_prog_in_spec.
      * simpl. now rewrite Hany.
    + apply any_prog_in_false in Hany.
      assert (forall s ps, In (s, ps) [(school, progs)] ->
                ~ school_matches programme ps) as Hhead.
      { intros s ps [H | []]. now injection H as _ <-. }
      pose proof (get_school_skip programme [(school, progs)] m Hhead) as Hskip.
      simpl app in Hskip.
      destruct IH as [(before & s & ps & after & -> & Hno & Hyes & Hres)
                     | [Hno Hres]].
      * left. exists ((school, progs) :: before), s, ps, after.
        repeat split; trivial.
        -- intros s' ps' [H | H]; [apply (Hhead s'); now left | eauto].
        -- now rewrite Hskip.
      * right. split; [|now rewrite Hskip].
        intros s' ps' [H | H]; [apply (Hhead s'); now left | eauto].
Qed.

(** C4, as the code has it.  Let the new code and the keyword be non-empty
    and the code be no key of the mapping.  After "Add New School", a
    programme that contains the keyword as a case-insensitive substring,
    and that no keyword of a department already in the mapping matches, is
    classified under the new code. *)
Theorem add_school_then_classify (m : mapping) (code kw : string)
    (programme : pyval) :
  code <> EmptyString -> kw <> EmptyString ->
  ~ In code (keys m) ->
  ci_substring kw (str programme) ->
  (forall s ps, In (s, ps) m -> ~ school_matches programme ps) ->
  get_school_from_programme programme (fst (add_new_school code kw m)) = code.
Proof.
  intros Hcode Hkw Hfresh Hsub Hno.
  rewrite add_new_school_fresh by assumption.
  rewrite get_school_skip by exact Hno.
  apply get_school_hit. exists kw. split; [now left | exact Hsub].
Qed.

Lemma add_school_then_classify_witness :
  "sop" <> EmptyString /\ "Pharmacy" <> EmptyString /\
  ~ In "sop" (keys school_mapping_default) /\
  ci_substring "Pharmacy" (str (PStr "Doctor of PHARMACY")) /\
  (forall s ps, In (s, ps) school_mapping_default ->
                ~ school_matches (PStr "Doctor of PHARMACY") ps) /\
  get_school_from_programme (PStr "Doctor of PHARMACY")
    (fst (add_new_school "sop" "Pharmacy" school_mapping_default)) = "sop".
Proof.
  assert (~ In "sop" (keys school_mapping_default)) as Hfresh.
  { simpl. intros [H | [H | [H | []]]]; discriminate H. }
  assert (ci_substring "Pharmacy" (str (PStr "Doctor of PHARMACY"))) as Hsub.
  { exists "doctor of ", EmptyString. reflexivity. }
  assert (forall s ps, In (s, ps) school_mapping_default ->
            ~ school_matches (PStr "Doctor of PHARMACY") ps) as Hno.
  { intros s ps [H | [H | [H | []]]]; injection H as _ <-;
      apply any_prog_in_false; reflexivity. }
  split; [discriminate|]. split; [discriminate|].
  split; [exact Hfresh|]. split; [exact Hsub|]. split; [exact Hno|].
  apply (add_school_then_classify school_mapping_default "sop" "Pharmacy"
           (PStr "Doctor of PHARMACY")); try discriminate; assumption.
Defined.

(** C4 as the specification words it fails: an earlier department that
    also matches the programme wins over the new one, and with an empty
    keyword the handler adds nothing. *)
Lemma add_school_then_classify_counterexample :
  (~ In "sop" (keys school_mapping_default)
   /\ ci_substring "Pharmacy" (str (PStr "Nursing and Pharmacy"))
   /\ get_school_from_programme (PStr "Nursing and Pharmacy")
        (fst (add_new_school "sop" "Pharmacy" school_mapping_default))
      = "sonam")
  /\ (ci_substring EmptyString (str (PStr "Physics"))
      /\ fst (add_new_school "sop" EmptyString school_mapping_default)
         = school_mapping_default
      /\ get_school_from_programme (PStr "Physics")
           (fst (add_new_school "sop" EmptyString school_mapping_default))
         = "unknown")
  /\ ~ (forall m code kw programme,
          ~ In code (keys m) ->
          ci_substring kw (str programme) ->
          get_school_from_programme programme
            (fst (add_new_school code kw m)) = code).
Proof.
  assert (~ In "sop" (keys school_mapping_default)) as Hfresh.
  { simpl. intros [H | [H | [H | []]]]; discriminate H. }
  assert (ci_substring "Pharmacy" (str (PStr "Nursing and Pharmacy")))
    as Hsub.
  { exists "nursing and ", EmptyString. reflexivity. }
  repeat split; try assumption; try reflexivity.
  - exists "physics", EmptyString. reflexivity.
  - intros H.
    specialize (H school_mapping_default "sop" "Pharmacy"
                  (PStr "Nursing and Pharmacy") Hfresh Hsub).
    discriminate H.
Qed.

(** C6.  With the default mapping, "BSc Nursing" is classified under
    "sonam" and "Underwater Basket Weaving" under "unknown". *)
Theorem classify_default_examples :
  get_school_from_programme (PStr "BSc Nursing") school_mapping_default
  = "sonam"
  /\ get_school_from_programme (PStr "Underwater Basket Weaving")
       school_mapping_default
     = "unknown".
Proof. split; reflexivity. Qed.

(** C8.  Two classifications of the same programme made one after the
    other in a session give the same department code, and the mapping the
    second one reads is the one the first one read. *)
Theorem classify_twice_same (programme : pyval) (m : mapping) :
  let (code1, m1) := classify_in_session programme m in
  let (code2, m2) := classify_in_session programme m1 in
  code1 = code2 /\ m1 = m /\ m2 = m.
Proof. simpl. repeat split. Qed.

(** C9.  For every programme value, a string or not, and every mapping,
    the classifier returns a code, and that code is a key of the mapping or
    "unknown". *)
Theorem get_school_key_or_unknown (programme : pyval) (m : mapping) :
  exists code,
    get_school_from_programme programme m = code
    /\ (In code (keys m) \/ code = "unknown").
Proof.
  eexists. split; [reflexivity|].
  induction m as [|[school progs] m IH]; simpl.
  - now right.
  - destruct (any_prog_in programme progs).
    + left. now left.
    + destruct IH as [IH | IH]; [left; now right | now right].
Qed.

(** ** The sidebar handlers *)

Section Sidebar.

Lemma list_mem_spec (x : string) (xs : list string) :
  list_mem x xs = true <-> In x xs.
Proof.
  unfold list_mem. rewrite existsb_exists. split.
  - intros [y [Hin Heq]]. apply String.eqb_eq in Heq. now subst.
  - intros Hin. exists x. split; [exact Hin | apply String.eqb_refl].
Qed.

(** A successful lookup finds the first entry of the key. *)
Lemma dict_get_split (k : string) (v : list string) (m : mapping) :
  dict_get k m = Done v <->
  exists before after,
    m = (before ++ (k, v) :: after)%list /\ ~ In k (keys before).
Proof.
  induction m as [|[k' v'] m IH]; simpl.
  - split; [discriminate|]. intros (before & after & H & _).
    now destruct before.
  - destruct (String.eqb k k') eqn:Heq.
    + apply String.eqb_eq in Heq. subst k'. split.
      * intros H. injection H as ->. exists [], m. split; [reflexivity|].
        intros [].
      * intros (before & after & H & Hfresh).
        destruct before as [|[k1 v1] before]; simpl in H.
        -- now injection H as ->.
        -- injection H as <- _ _. elim Hfresh. now left.
    + apply String.eqb_neq in Heq. rewrite IH. split.
      * intros (before & after & -> & Hfresh).
        exists ((k', v') :: before), after. split; [reflexivity|].
        intros [H | H]; [now apply Heq | now apply Hfresh].
      * intros (before & after & H & Hfresh).
        destruct before as [|[k1 v1] before]; simpl in H.
        -- injection H as H _ _. now elim Heq.
        -- injection H as _ _ ->. exists before, after.
           split; [reflexivity|]. intros Hin. apply Hfresh. now right.
Qed.

Lemma dict_get_in (k : string) (m : mapping) :
  In k (keys m) -> exists v, dict_get k m = Done v.
Proof.
  induction m as [|[k' v'] m IH]; simpl; [intros []|].
  intros Hin. destruct (String.eqb k k') eqn:Heq; [now exists v'|].
  apply String.eqb_neq in Heq. destruct Hin as [H | H]; [now elim Heq|].
  now apply IH.
Qed.

Lemma dict_get_notin (k : string) (m : mapping) :
  ~ In k (keys m) -> dict_get k m = Failed (KeyError k).
Proof.
  induction m as [|[k' v'] m IH]; simpl; [reflexivity|].
  intros Hk. destruct (String.eqb k k') eqn:Heq.
  - apply String.eqb_eq in Heq. elim Hk. now left.
  - apply IH. intros H. apply Hk. now right.
Qed.

(** Setting a key the mapping holds replaces its first entry in place. *)
Lemma dict_set_split (k : string) (v v' : list string)
    (before after : mapping) :
  ~ In k (keys before) ->
  dict_set k v' (before ++ (k, v) :: after)%list
  = (before ++ (k, v') :: after)%list.
Proof.
  induction before as [|[k1 v1] before IH]; intros Hfresh; simpl.
  - now rewrite String.eqb_refl.
  - destruct (String.eqb k k1) eqn:Heq.
    + apply String.eqb_eq in Heq. elim Hfresh. now left.
    + rewrite IH; [reflexivity|]. intros H. apply Hfresh. now right.
Qed.

(** What "Add Programme" does, case by case. *)
Lemma add_programme_inv (school prog : string) (m m' : mapping)
    (fb : feedback) :
  add_programme school prog m = Done (m', fb) ->
  (m' = m /\ (prog = EmptyString /\ fb = Silent
              \/ exists progs, dict_get school m = Done progs
                               /\ In prog progs
                               /\ fb = Warning "Programme already exists."))
  \/ (prog <> EmptyString /\
      exists before progs after,
        m = (before ++ (school, progs) :: after)%list
        /\ ~ In school (keys before) /\ ~ In prog progs
        /\ m' = (before ++ (school, progs ++ [prog]) :: after)%list).
Proof.
  unfold add_programme. destruct prog as [|c prog]; cbn [truthy].
  - intros H. injection H as <- <-. left. split; [reflexivity | now left].
  - destruct (dict_get school m) as [progs|e] eqn:Hget; cbn [res_bind];
      [|discriminate].
    destruct (list_mem (String c prog) progs) eqn:Hmem; cbn [negb].
    + intros H. injection H as <- <-. left. split; [reflexivity|].
      right. exists progs. apply list_mem_spec in Hmem. now repeat split.
    + intros H. injection H as <- <-. right. split; [discriminate|].
      apply dict_get_split in Hget as (before & after & -> & Hfresh).
      exists before, progs, after. repeat split; trivial.
      * intros Hin. apply list_mem_spec in Hin. congruence.
      * now apply dict_set_split.
Qed.

(** "Add Programme" never raises on a school of the mapping. *)
Lemma add_programme_done (school prog : string) (m : mapping) :
  In school (keys m) ->
  exists m' fb, add_programme school prog m = Done (m', fb).
Proof.
  intros Hin. unfold add_programme.
  destruct (truthy prog); [|now eexists; eexists].
  destruct (dict_get_in school m Hin) as [progs ->]. cbn [res_bind].
  destruct (negb (list_mem prog progs)); now eexists; eexists.
Qed.

End Sidebar.

Section Classifier.

Variable programme : pyval.

(** The classifier on a mapping made of two parts. *)
Lemma get_school_app_cases (m rest : mapping) :
  ((exists s ps, In (s, ps) m /\ school_matches programme ps)
   /\ get_school_from_programme programme (m ++ rest)%list
      = get_school_from_programme programme m)
  \/ ((forall s ps, In (s, ps) m -> ~ school_matches programme ps)
      /\ get_school_from_programme programme (m ++ rest)%list
         = get_school_from_programme programme rest).
Proof.
  induction m as [|[school progs] m IH]; simpl.
  - right. split; [intros s ps [] | reflexivity].
  - destruct (any_prog_in programme progs) eqn:Hany.
    + left. split; [|reflexivity]. exists school, progs.
      split; [now left | now apply any_prog_in_spec].
    + apply any_prog_in_false in Hany.
      destruct IH as [[(s & ps & Hin & Hyes) Heq] | [Hno Heq]].
      * left. split; [|exact Heq]. exists s, ps. split; [now right | exact Hyes].
      * right. split; [|exact Heq].
        intros s ps [H | H]; [now injection H as _ <- | eauto].
Qed.


Lemma school_matches_app (ps qs : list string) :
  school_matches programme (ps ++ qs)
  <-> school_matches programme ps \/ school_matches programme qs.
Proof.
  unfold school_matches. split.
  - intros (kw & Hin & H). apply in_app_or in Hin as [Hin | Hin];
      [left | right]; now exists kw.
  - intros [(kw & Hin & H) | (kw & Hin & H)]; exists kw;
      (split; [apply in_or_app; auto | exact H]).
Qed.

Lemma school_matches_single (kw : string) :
  school_matches programme [kw] <-> ci_substring kw (str programme).
Proof.
  unfold school_matches. split.
  - intros (k & [<- | []] & H). exact H.
  - intros H. exists kw. split; [now left | exact H].
Qed.

Lemma school_matches_dec (ps : list string) :
  school_matches programme ps \/ ~ school_matches programme ps.
Proof.
  destruct (any_prog_in programme ps) eqn:H;
    [left; now apply any_prog_in_spec | right; now apply any_prog_in_false].
Qed.

End Classifier.

(** ** Properties of "Add New School" *)

(** What "Add New School" does, case by case. *)
Lemma add_new_school_inv (code kw : string) (m : mapping) :
  (code <> EmptyString /\ kw <> EmptyString /\ ~ In code (keys m)
   /\ exists msg,
        add_new_school code kw m
        = ((m ++ [(code, [kw])])%list, Success msg))
  \/ (code <> EmptyString /\ kw <> EmptyString /\ In code (keys m)
      /\ add_new_school code kw m = (m, Warning "School already exists."))
  \/ ((code = EmptyString \/ kw = EmptyString)
      /\ add_new_school code kw m = (m, Silent)).
Proof.
  unfold add_new_school. destruct code as [|c code].
  { right. right. split; [now left | reflexivity]. }
  destruct kw as [|d kw].
  { right. right. split; [now right | reflexivity]. }
  cbn [truthy andb]. destruct (dict_mem (String c code) m) eqn:Hmem.
  - right. left. apply dict_mem_spec in Hmem.
    repeat split; try discriminate. exact Hmem.
  - left. assert (~ In (String c code) (keys m)) as Hfresh.
    { intros H. apply dict_mem_spec in H. congruence. }
    repeat split; try discriminate; try exact Hfresh.
    cbn [negb]. rewrite dict_set_fresh by exact Hfresh. now eexists.
Qed.

(** X1.  "Add New School" has three outcomes.  With a non-empty code that
    is no key yet and a non-empty keyword, the school goes last with that
    one keyword.  With a code the mapping already has, nothing changes and
    a warning is shown: a school is never overwritten.  With an empty code
    or keyword nothing happens at all. *)
Theorem add_new_school_outcomes (code kw : string) (m : mapping) :
  (code <> EmptyString /\ kw <> EmptyString /\ ~ In code (keys m)
   /\ exists msg,
        add_new_school code kw m
        = ((m ++ [(code, [kw])])%list, Success msg))
  \/ (code <> EmptyString /\ kw <> EmptyString /\ In code (keys m)
      /\ add_new_school code kw m = (m, Warning "School already exists."))
  \/ ((code = EmptyString \/ kw = EmptyString)
      /\ add_new_school code kw m = (m, Silent)).
Proof. apply add_new_school_inv. Qed.


(** ** Properties of "Add Programme" *)

Section AddProgramme.

Variables (school prog : string) (m m' : mapping) (fb : feedback).
Hypothesis Hadd : add_programme school prog m = Done (m', fb).

Lemma dict_get_other (k : string) (v v' : list string)
    (before after : mapping) :
  k <> school ->
  dict_get k (before ++ (school, v) :: after)%list
  = dict_get k (before ++ (school, v') :: after)%list.
Proof.
  intros Hk. induction before as [|[k1 v1] before IH]; simpl.
  - apply String.eqb_neq in Hk. now rewrite Hk.
  - now rewrite IH.
Qed.

(** X3.  "Add Programme" adds and removes no school and keeps their order,
    and the keyword list of every school other than the selected one is
    what it was. *)
Theorem add_programme_keeps_schools :
  keys m' = keys m
  /\ forall k, k <> school -> dict_get k m' = dict_get k m.
Proof using Hadd.
  destruct (add_programme_inv _ _ _ _ _ Hadd)
    as [[-> _] | (_ & before & progs & after & -> & _ & _ & ->)].
  - split; [reflexivity | reflexivity].
  - split.
    + unfold keys. rewrite !map_app. reflexivity.
    + intros k Hk. symmetry. now apply dict_get_other.
Qed.

(** X4.  After "Add Programme" a programme is classified as before or
    under the selected school: a new keyword can only draw programmes to
    its own school. *)
Theorem add_programme_draws_to_selected (programme : pyval) :
  get_school_from_programme programme m'
  = get_school_from_programme programme m
  \/ get_school_from_programme programme m' = school.
Proof using Hadd.
  destruct (add_programme_inv _ _ _ _ _ Hadd)
    as [[-> _] | (_ & before & progs & after & -> & _ & _ & ->)];
    [now left|].
  destruct (get_school_app_cases programme before
              ((school, progs ++ [prog])%list :: after))
    as [[Hyes ->] | [Hno ->]].
  - left. destruct (get_school_app_cases programme before
                      ((school, progs) :: after)) as [[_ ->] | [Hno _]].
    + reflexivity.
    + destruct Hyes as (s & ps & Hin & Hm). now elim (Hno s ps Hin).
  - rewrite (get_school_skip programme before _ Hno).
    destruct (school_matches_dec programme (progs ++ [prog])%list)
      as [Hyes | Hnot].
    + right. now apply get_school_hit.
    + left. simpl.
      assert (any_prog_in programme (progs ++ [prog])%list = false) as ->
        by now apply any_prog_in_false.
      assert (any_prog_in programme progs = false) as ->.
      { apply any_prog_in_false. intros H. apply Hnot.
        apply school_matches_app. now left. }
      reflexivity.
Qed.

(** X5.  Pressing "Add Programme" a second time with the same school and
    text changes nothing more: the mapping stays as the first press left
    it, and no success is reported. *)
Theorem add_programme_twice :
  exists fb',
    add_programme school prog m' = Done (m', fb') /\
    (fb' = Silent \/ fb' = Warning "Programme already exists.").
Proof using Hadd.
  destruct (add_programme_inv _ _ _ _ _ Hadd)
    as [[-> [[-> _] | (progs & Hget & Hin & _)]]
       | (Hprog & before & progs & after & -> & Hfresh & _ & ->)].
  - exists Silent. split; [reflexivity | now left].
  - destruct prog as [|c p] eqn:Hp.
    { exists Silent. split; [reflexivity | now left]. }
    exists (Warning "Programme already exists."). split; [|now right].
    unfold add_programme. cbn [truthy]. rewrite Hget. cbn [res_bind].
    apply list_mem_spec in Hin. now rewrite Hin.
  - exists (Warning "Programme already exists."). split; [|now right].
    unfold add_programme. destruct prog as [|c p]; [congruence|].
    cbn [truthy].
    assert (dict_get school
              (before ++ (school, progs ++ [String c p]) :: after)%list
            = Done (progs ++ [String c p])%list) as ->.
    { apply dict_get_split. now exists before, after. }
    cbn [res_bind].
    assert (list_mem (String c p) (progs ++ [String c p])%list = true) as ->.
    { apply list_mem_spec, in_or_app. right. now left. }
    reflexivity.
Qed.

End AddProgramme.

Lemma add_programme_keeps_schools_witness :
  exists m' fb,
    add_programme "sph" "Epidemiology" school_mapping_default = Done (m', fb)
    /\ keys m' = keys school_mapping_default
    /\ forall k, k <> "sph" ->
                 dict_get k m' = dict_get k school_mapping_default.
Proof.
  eexists. eexists. split; [reflexivity|].
  eapply (add_programme_keeps_schools "sph" "Epidemiology"
            school_mapping_default).
  reflexivity.
Defined.

Lemma add_programme_draws_to_selected_witness :
  exists m' fb,
    add_programme "sahs" "Health" school_mapping_default = Done (m', fb)
    /\ (get_school_from_programme (PStr "Health Informatics") m'
        = get_school_from_programme (PStr "Health Informatics")
            school_mapping_default
        \/ get_school_from_programme (PStr "Health Informatics") m' = "sahs").
Proof.
  eexists. eexists. split; [reflexivity|].
  eapply (add_programme_draws_to_selected "sahs" "Health"
            school_mapping_default).
  reflexivity.
Defined.

Lemma add_programme_twice_witness :
  exists m' fb,
    add_programme "sph" "Epidemiology" school_mapping_default = Done (m', fb)
    /\ exists fb',
         add_programme "sph" "Epidemiology" m' = Done (m', fb')
         /\ (fb' = Silent \/ fb' = Warning "Programme already exists.").
Proof.
  eexists. eexists. split; [reflexivity|].
  eapply (add_programme_twice "sph" "Epidemiology" school_mapping_default).
  reflexivity.
Defined.

(** X6.  Take a school of the mapping and a non-empty text.  After "Add
    Programme", a programme that contains the text as a case-insensitive
    substring, and that no keyword of a school listed before the selected
    one matches, is classified under the selected school. *)
Theorem add_programme_then_classify (school prog : string)
    (before after : mapping) (progs : list string) (programme : pyval) :
  ~ In school (keys before) ->
  prog <> EmptyString ->
  ci_substring prog (str programme) ->
  (forall s ps, In (s, ps) before -> ~ school_matches programme ps) ->
  exists m' fb,
    add_programme school prog (before ++ (school, progs) :: after)%list
    = Done (m', fb)
    /\ get_school_from_programme programme m' = school.
Proof.
  intros Hfresh Hprog Hsub Hno.
  destruct (add_programme_done school prog
              (before ++ (school, progs) :: after)%list) as (m' & fb & Hadd).
  { unfold keys. rewrite map_app. apply in_or_app. right. now left. }
  exists m', fb. split; [exact Hadd|].
  destruct (add_programme_inv _ _ _ _ _ Hadd)
    as [[-> [[-> _] | (progs' & Hget & Hin & _)]]
       | (_ & before' & progs' & after' & Heq & Hfresh' & _ & ->)].
  - congruence.
  - assert (dict_get school (before ++ (school, progs) :: after)%list
            = Done progs) as Hget'.
    { apply dict_get_split. now exists before, after. }
    rewrite Hget' in Hget. injection Hget as <-.
    rewrite get_school_skip by exact Hno. apply get_school_hit.
    now exists prog.
  - assert (dict_get school (before ++ (school, progs) :: after)%list
            = Done progs) as Hget.
    { apply dict_get_split. now exists before, after. }
    assert (dict_get school (before ++ (school, progs) :: after)%list
            = Done progs') as Hget'.
    { rewrite Heq. apply dict_get_split. now exists before', after'. }
    rewrite <- (dict_set_split school progs' (progs' ++ [prog])%list
                  before' after' Hfresh').
    rewrite <- Heq.
    rewrite (dict_set_split school progs _ before after Hfresh).
    rewrite get_school_skip by exact Hno. apply get_school_hit.
    apply school_matches_app. right. now apply school_matches_single.
Qed.

Lemma add_programme_then_classify_witness :
  ~ In "sph" (keys [("sonam", ["Nursing"; "Midwifery"])]) /\
  "Epidemiology" <> EmptyString /\
  ci_substring "Epidemiology" (str (PStr "MSc EPIDEMIOLOGY")) /\
  (forall s ps, In (s, ps) [("sonam", ["Nursing"; "Midwifery"])] ->
                ~ school_matches (PStr "MSc EPIDEMIOLOGY") ps) /\
  exists m' fb,
    add_programme "sph" "Epidemiology"
      ([("sonam", ["Nursing"; "Midwifery"])]
       ++ ("sph", ["Public Health"]) :: [("sahs", ["Dietetics"])])%list
    = Done (m', fb)
    /\ get_school_from_programme (PStr "MSc EPIDEMIOLOGY") m' = "sph".
Proof.
  assert (~ In "sph" (keys [("sonam", ["Nursing"; "Midwifery"])])) as Hfresh.
  { simpl. intros [H | []]. discriminate H. }
  assert (ci_substring "Epidemiology" (str (PStr "MSc EPIDEMIOLOGY")))
    as Hsub.
  { exists "msc ", EmptyString. reflexivity. }
  assert (forall s ps, In (s, ps) [("sonam", ["Nursing"; "Midwifery"])] ->
            ~ school_matches (PStr "MSc EPIDEMIOLOGY") ps) as Hno.
  { intros s ps [H | []]. injection H as _ <-.
    apply any_prog_in_false. reflexivity. }
  split; [exact Hfresh|]. split; [discriminate|]. split; [exact Hsub|].
  split; [exact Hno|].
  apply (add_programme_then_classify "sph" "Epidemiology"
           [("sonam", ["Nursing"; "Midwifery"])] [("sahs", ["Dietetics"])]
           ["Public Health"] (PStr "MSc EPIDEMIOLOGY"));
    [exact Hfresh | discriminate | exact Hsub | exact Hno].
Defined.

(** ** What every session mapping satisfies *)

Section Session.

Lemma well_formed_default : well_formed school_mapping_default.
Proof.
  split.
  - simpl. repeat constructor; simpl; intuition discriminate.
  - repeat constructor; simpl; try discriminate; intuition discriminate.
Qed.

Lemma well_formed_add_school (code kw : string) (m : mapping) :
  well_formed m -> well_formed (fst (add_new_school code kw m)).
Proof.
  intros [Hkeys Hall]. split; [now apply add_new_school_nodup|].
  destruct (add_new_school_inv code kw m)
    as [(Hc & Hk & _ & msg & ->) | [(_ & _ & _ & ->) | (_ & ->)]];
    cbn [fst]; try exact Hall.
  apply Forall_app. split; [exact Hall|].
  repeat constructor; simpl; trivial. intros [].
Qed.

Lemma well_formed_add_programme (school prog : string) (m m' : mapping)
    (fb : feedback) :
  add_programme school prog m = Done (m', fb) ->
  well_formed m -> well_formed m'.
Proof.
  intros Hadd [Hkeys Hall].
  destruct (add_programme_inv _ _ _ _ _ Hadd)
    as [[-> _] | (Hprog & before & progs & after & -> & _ & Hnew & ->)];
    [now split|].
  split.
  - unfold keys in *. rewrite map_app in *. exact Hkeys.
  - apply Forall_app in Hall as [Hb Ha]. inversion Ha as [|e l He Hl]; subst.
    destruct He as (Hcode & Hnd & Hne). cbn [fst snd] in *.
    apply Forall_app. split; [exact Hb|]. constructor; [|exact Hl].
    cbn [fst snd]. repeat split; [exact Hcode | |].
    + apply NoDup_app; [exact Hnd | repeat constructor; intros [] |].
      intros k Hk [<- | []]. contradiction.
    + apply Forall_app. split; [exact Hne | now repeat constructor].
Qed.

Lemma extends_refl (m : mapping) : extends m m.
Proof.
  induction m as [|e m IH]; simpl; [exact I|].
  repeat split; [|exact IH]. exists []. now rewrite app_nil_r.
Qed.

Lemma extends_app (m0 m tail : mapping) :
  extends m0 m -> extends m0 (m ++ tail)%list.
Proof.
  revert m; induction m0 as [|e0 m0 IH]; intros m; [trivial|].
  destruct m as [|e m]; simpl; [intros []|].
  intros (Hf & Hs & He). repeat split; auto.
Qed.

Lemma extends_more_keywords (m0 before after : mapping) (school : string)
    (progs more : list string) :
  extends m0 (before ++ (school, progs) :: after)%list ->
  extends m0 (before ++ (school, progs ++ more) :: after)%list.
Proof.
  revert before; induction m0 as [|e0 m0 IH]; intros before; [trivial|].
  destruct before as [|b before]; simpl.
  - intros (Hf & [extra Hs] & He). repeat split; [exact Hf | | exact He].
    exists (extra ++ more)%list. rewrite Hs. now rewrite app_assoc.
  - intros (Hf & Hs & He). repeat split; auto.
Qed.

Lemma reachable_extends (m : mapping) :
  reachable m -> extends school_mapping_default m.
Proof.
  induction 1 as [|code kw m _ IH | school prog m m' fb _ IH Hadd].
  - apply extends_refl.
  - destruct (add_new_school_inv code kw m)
      as [(_ & _ & _ & msg & ->) | [(_ & _ & _ & ->) | (_ & ->)]];
      cbn [fst]; [now apply extends_app | exact IH | exact IH].
  - destruct (add_programme_inv _ _ _ _ _ Hadd)
      as [[-> _] | (_ & before & progs & after & -> & _ & _ & ->)];
      [exact IH | now apply extends_more_keywords].
Qed.

End Session.

(** X7.  Every mapping a session can reach from the default one by the two
    sidebar handlers has pairwise distinct, non-empty school codes, and
    under each school keywords that are non-empty and listed once. *)
Theorem reachable_well_formed (m : mapping) : reachable m -> well_formed m.
Proof.
  induction 1 as [|code kw m _ IH | school prog m m' fb _ IH Hadd].
  - exact well_formed_default.
  - now apply well_formed_add_school.
  - now apply (well_formed_add_programme school prog m m' fb).
Qed.

Lemma reachable_well_formed_witness :
  reachable (fst (add_new_school "sop" "Pharmacy" school_mapping_default))
  /\ well_formed (fst (add_new_school "sop" "Pharmacy" school_mapping_default)).
Proof.
  assert (reachable
            (fst (add_new_school "sop" "Pharmacy" school_mapping_default)))
    as Hreach by (apply reach_add_school, reach_start).
  split; [exact Hreach|].
  apply (reachable_well_formed _ Hreach).
Defined.

(** X8.  The sidebar only ever grows the mapping: in every reachable
    mapping the default schools come first, in their order, and each still
    has its default keywords at the start of its list. *)
Theorem reachable_grows_default (m : mapping) :
  reachable m -> extends school_mapping_default m.
Proof. apply reachable_extends. Qed.

Lemma reachable_grows_default_witness :
  exists m' fb,
    add_programme "sph" "Epidemiology" school_mapping_default = Done (m', fb)
    /\ reachable m' /\ extends school_mapping_default m'.
Proof.
  eexists. eexists. split; [reflexivity|].
  assert (reachable
            [ ("sonam", ["Nursing"; "Midwifery"; "Public Health Nursing";
                         "Master of Philosophy"]);
              ("sph", ["Public Health"; "Health Promotion"; "Disease Control";
                       "Environmental Health"; "Nutrition"; "Epidemiology"]);
              ("sahs", ["Dietetics"; "Medical Laboratory Sciences";
                        "Orthotics and Prosthetics"; "Physiotherapy"]) ])
    as Hreach.
  { apply (reach_add_programme "sph" "Epidemiology" school_mapping_default
             _ (Success "Added 'Epidemiology' to sph") reach_start).
    reflexivity. }
  split; [exact Hreach|].
  apply (reachable_grows_default _ Hreach).
Defined.

(** X9.  Whatever is added in the sidebar, a programme that one of the
    default keywords of "sonam" matches is classified under "sonam": the
    first school keeps every programme it takes. *)
Theorem reachable_sonam_keeps (m : mapping) (programme : pyval) :
  reachable m ->
  school_matches programme
    ["Nursing"; "Midwifery"; "Public Health Nursing"; "Master of Philosophy"] ->
  get_school_from_programme programme m = "sonam".
Proof.
  intros Hreach Hmatch. apply reachable_extends in Hreach.
  destruct m as [|[code progs] m]; [destruct Hreach|].
  destruct Hreach as (Hcode & [extra Hprogs] & _). cbn [fst snd] in *.
  subst code progs. apply get_school_hit.
  apply school_matches_app. now left.
Qed.

Lemma reachable_sonam_keeps_witness :
  reachable (fst (add_new_school "sop" "Pharmacy" school_mapping_default))
  /\ school_matches (PStr "Public Health Nursing (Top-up)")
       ["Nursing"; "Midwifery"; "Public Health Nursing";
        "Master of Philosophy"]
  /\ get_school_from_programme (PStr "Public Health Nursing (Top-up)")
       (fst (add_new_school "sop" "Pharmacy" school_mapping_default))
     = "sonam".
Proof.
  assert (reachable
            (fst (add_new_school "sop" "Pharmacy" school_mapping_default)))
    as Hreach by (apply reach_add_school, reach_start).
  assert (school_matches (PStr "Public Health Nursing (Top-up)")
            ["Nursing"; "Midwifery"; "Public Health Nursing";
             "Master of Philosophy"]) as Hmatch.
  { apply any_prog_in_spec. reflexivity. }
  split; [exact Hreach|]. split; [exact Hmatch|].
  apply (reachable_sonam_keeps _ _ Hreach Hmatch).
Defined.

(** ** The column checks *)

Lemma contains_programme_nonempty (c : string) :
  contains "programme" (lower c) = true -> c <> EmptyString.
Proof. intros H ->. discriminate H. Qed.

(** X10.  The programme column the script works with is the first column,
    from the left, whose label contains "programme" in any casing; the
    script stops with the error message exactly when no label does. *)
Theorem detect_programme_col_first (columns : list string) :
  (exists before c after,
      columns = (before ++ c :: after)%list
      /\ (forall b, In b before -> ~ ci_substring "programme" b)
      /\ ci_substring "programme" c
      /\ detect_programme_col columns = Some c)
  \/ ((forall c, In c columns -> ~ ci_substring "programme" c)
      /\ detect_programme_col columns = None).
Proof.
  unfold detect_programme_col.
  induction columns as [|c columns IH]; simpl.
  - right. split; [intros c [] | reflexivity].
  - destruct (contains "programme" (lower c)) eqn:Hc.
    + left. exists [], c, columns.
      assert (truthy c = true) as ->.
      { pose proof (contains_programme_nonempty c Hc). now destruct c. }
      repeat split.
      * intros b [].
      * now apply (contains_ci "programme" c).
    + assert (~ ci_substring "programme" c) as Hnot.
      { intros H. apply (contains_ci "programme" c) in H.
        change (contains "programme" (lower c) = true) in H. congruence. }
      destruct IH as [(before & c' & after & -> & Hno & Hyes & Hres)
                     | [Hno Hres]].
      * left. exists (c :: before), c', after. repeat split; trivial.
        intros b [<- | H]; auto.
      * right. split; [|exact Hres]. intros b [<- | H]; auto.
Qed.

Lemma detect_programme_col_in (columns : list string) (c : string) :
  detect_programme_col columns = Some c -> In c columns.
Proof.
  unfold detect_programme_col.
  induction columns as [|c' columns IH]; simpl; [discriminate|].
  destruct (contains "programme" (lower c')).
  - destruct (truthy c'); [|discriminate]. intros H. injection H as ->.
    now left.
  - intros H. right. now apply IH.
Qed.

(** ** Rows *)

Section Rows.

Lemma row_get_in (r : row) (col : string) :
  In col (map fst r) -> exists v, row_get r col = Done v.
Proof.
  induction r as [|[c v] r IH]; simpl; [intros []|].
  intros Hin. destruct (String.eqb col c) eqn:Heq; [now exists v|].
  apply String.eqb_neq in Heq. destruct Hin as [H | H]; [now elim Heq|].
  now apply IH.
Qed.

Lemma row_get_notin (r : row) (col : string) :
  ~ In col (map fst r) -> row_get r col = Failed (KeyError col).
Proof.
  induction r as [|[c v] r IH]; simpl; [reflexivity|].
  intros Hcol. destruct (String.eqb col c) eqn:Heq.
  - apply String.eqb_eq in Heq. elim Hcol. now left.
  - apply IH. intros H. apply Hcol. now right.
Qed.

(** A cell just set is the one read back. *)
Lemma row_get_set_same (r : row) (col : string) (v : pyval) :
  row_get (row_set col v r) col = Done v.
Proof.
  induction r as [|[c v'] r IH]; simpl.
  - now rewrite String.eqb_refl.
  - destruct (String.eqb col c) eqn:Heq; simpl; rewrite Heq;
      [reflexivity | exact IH].
Qed.

(** Setting a column leaves the cells of the other columns alone. *)
Lemma row_get_set_other (r : row) (col col' : string) (v : pyval) :
  col <> col' -> row_get (row_set col' v r) col = row_get r col.
Proof.
  intros Hne. apply String.eqb_neq in Hne.
  induction r as [|[c v'] r IH]; simpl.
  - now rewrite Hne.
  - destruct (String.eqb col' c) eqn:Heq; simpl.
    + apply String.eqb_eq in Heq. subst c. now rewrite Hne.
    + now rewrite IH.
Qed.

Lemma list_mem_true (x : string) (xs : list string) :
  list_mem x xs = true -> In x xs.
Proof. apply list_mem_spec. Qed.

Lemma get_school_in_keys (programme : pyval) (m : mapping) :
  In (get_school_from_programme programme m) (keys m)
  \/ get_school_from_programme programme m = "unknown".
Proof.
  induction m as [|[school progs] m IH]; simpl.
  - now right.
  - destruct (any_prog_in programme progs).
    + left. now left.
    + destruct IH as [IH | IH]; [left; now right | now right].
Qed.

Variables (r : row) (admission_year : Z) (student_type : string).
Variables (first middle last : pyval).
Hypothesis Hfirst : row_get r "Firstname" = Done first.
Hypothesis Hmiddle : row_get r "Middlename" = Done middle.
Hypothesis Hlast : row_get r "Lastname" = Done last.

(** The text the lambda passes for the middle name. *)
Let middle_text : string := if notna middle then str middle else EmptyString.

Lemma row_email_call (department : pyval) :
  row_get r "Department" = Done department ->
  row_email r admission_year student_type
  = lift_exc (generate_email (str first) (Some middle_text) (str last)
                (str department) admission_year student_type).
Proof using Hfirst Hmiddle Hlast.
  intros Hdept. unfold row_email, middle_text.
  rewrite Hfirst. cbn [res_bind]. rewrite Hmiddle. cbn [res_bind].
  destruct (notna middle); cbn [res_bind]; now rewrite Hlast, Hdept.
Qed.

(** X11.  On a row that has the four columns, the only thing that makes
    the address fail is a first-name cell whose text is empty: the index
    error of [generate_email] comes out.  Every other row gets an
    address. *)
Theorem row_email_fails_only_on_empty_first (department : pyval) :
  row_get r "Department" = Done department ->
  (str first = EmptyString ->
   row_email r admission_year student_type = Failed (Raised IndexError))
  /\ (str first <> EmptyString ->
      exists email, row_email r admission_year student_type = Done email).
Proof using Hfirst Hmiddle Hlast.
  intros Hdept. rewrite (row_email_call department Hdept). split.
  - intros ->. reflexivity.
  - intros Hne. rewrite generate_email_ok by exact Hne. now eexists.
Qed.

(** X12.  A missing first-name cell ([None] or NaN) raises nothing: its
    text "None" or "nan" is taken for the name, and the address starts
    with the letter n. *)
Theorem row_email_missing_first (department : pyval) :
  row_get r "Department" = Done department ->
  notna first = false ->
  exists rest,
    row_email r admission_year student_type = Done (String "n" rest).
Proof using Hfirst Hmiddle Hlast.
  intros Hdept Hna. rewrite (row_email_call department Hdept).
  destruct first; try discriminate Hna;
    (rewrite generate_email_ok by discriminate); now eexists.
Qed.


End Rows.

Lemma row_email_fails_only_on_empty_first_witness :
  row_get row_ama "Firstname" = Done (PStr "Ama") /\
  row_get row_ama "Middlename" = Done PNaN /\
  row_get row_ama "Lastname" = Done (PStr "Mensah") /\
  row_get row_ama "Department" = Done (PStr "Registry") /\
  (str (PStr "Ama") = EmptyString ->
   row_email row_ama 2025 "Regular" = Failed (Raised IndexError)) /\
  (str (PStr "Ama") <> EmptyString ->
   exists email, row_email row_ama 2025 "Regular" = Done email).
Proof.
  split; [reflexivity|]. split; [reflexivity|]. split; [reflexivity|].
  split; [reflexivity|].
  apply (row_email_fails_only_on_empty_first row_ama 2025 "Regular"
           (PStr "Ama") PNaN (PStr "Mensah") eq_refl eq_refl eq_refl
           (PStr "Registry") eq_refl).
Defined.

Lemma row_email_missing_first_witness :
  row_get row_no_first "Firstname" = Done PNone /\
  row_get row_no_first "Middlename" = Done (PStr "Kofi") /\
  row_get row_no_first "Lastname" = Done (PStr "Mensah") /\
  row_get row_no_first "Department" = Done (PStr "sph") /\
  notna PNone = false /\
  exists rest, row_email row_no_first 2024 "Sandwich" = Done (String "n" rest).
Proof.
  split; [reflexivity|]. split; [reflexivity|]. split; [reflexivity|].
  split; [reflexivity|]. split; [reflexivity|].
  apply (row_email_missing_first row_no_first 2024 "Sandwich"
           PNone (PStr "Kofi") (PStr "Mensah") eq_refl eq_refl eq_refl
           (PStr "sph")); reflexivity.
Defined.


(** X14.  A roster with "Firstname" and "Lastname" columns but no
    "Middlename" column passes the column checks, and then every row fails
    with the key error of [row["Middlename"]]. *)
Theorem process_row_without_middlename (r : row) (programme_col : string)
    (m : mapping) (admission_year : Z) (student_type : string) :
  detect_programme_col (map fst r) = Some programme_col ->
  name_columns (map fst r) = FromSplitColumns ->
  ~ In "Middlename" (map fst r) ->
  process_row programme_col m admission_year student_type r
  = Failed (KeyError "Middlename").
Proof.
  intros Hprog Hnames Hmid.
  apply detect_programme_col_in, row_get_in in Hprog as [x Hx].
  assert (In "Firstname" (map fst r)) as Hfirst.
  { unfold name_columns in Hnames.
    destruct (list_mem "Fullname" (map fst r) || list_mem "Name" (map fst r));
      [discriminate|].
    destruct (list_mem "Firstname" (map fst r)) eqn:H; [|discriminate].
    now apply list_mem_true. }
  apply row_get_in in Hfirst as [f Hf].
  unfold process_row, with_department. rewrite Hx. cbn [res_bind].
  unfold row_email. rewrite !row_get_set_other by discriminate.
  rewrite Hf. cbn [res_bind]. now rewrite (row_get_notin r "Middlename" Hmid).
Qed.

Lemma process_row_without_middlename_witness :
  detect_programme_col (map fst row_two_names) = Some "Programme Of Study" /\
  name_columns (map fst row_two_names) = FromSplitColumns /\
  ~ In "Middlename" (map fst row_two_names) /\
  process_row "Programme Of Study" school_mapping_default 2024 "Regular"
    row_two_names
  = Failed (KeyError "Middlename").
Proof.
  assert (~ In "Middlename" (map fst row_two_names)) as Hmid.
  { simpl. intros [H | [H | [H | []]]]; discriminate H. }
  split; [reflexivity|]. split; [reflexivity|]. split; [exact Hmid|].
  apply (process_row_without_middlename row_two_names "Programme Of Study"
           school_mapping_default 2024 "Regular" eq_refl eq_refl Hmid).
Defined.

(** X15.  Every address a row gets ends in "@", a lowercased department
    code and ".uhas.edu.gh", and that code is a key of the mapping or
    "unknown". *)
Theorem process_row_domain (programme_col : string) (m : mapping)
    (admission_year : Z) (student_type : string) (r : row) (email : string) :
  process_row programme_col m admission_year student_type r = Done email ->
  exists local code,
    email = local ++ "@" ++ lower code ++ ".uhas.edu.gh"
    /\ (In code (keys m) \/ code = "unknown").
Proof.
  unfold process_row, with_department.
  destruct (row_get r programme_col) as [x|e] eqn:Hx; cbn [res_bind];
    [|discriminate].
  unfold row_email. rewrite !row_get_set_other by discriminate.
  rewrite row_get_set_same.
  destruct (row_get r "Firstname") as [f|e]; cbn [res_bind]; [|discriminate].
  destruct (row_get r "Middlename") as [mid|e]; cbn [res_bind];
    [|discriminate].
  destruct (row_get r "Lastname") as [l|e];
    [|destruct (notna mid); discriminate].
  cbn [str].
  destruct (string_dec (str f) EmptyString) as [-> | Hne].
  { destruct (notna mid); discriminate. }
  intros H.
  assert (exists mt,
            Done email
            = lift_exc (generate_email (str f) (Some mt) (str l)
                          (get_school_from_programme x m)
                          admission_year student_type)) as [mt Hmt].
  { destruct (notna mid); cbn [res_bind] in H; eexists; symmetry; exact H. }
  rewrite generate_email_ok in Hmt by exact Hne. cbn [lift_exc] in Hmt.
  injection Hmt as ->. unfold email_format.
  eexists. exists (get_school_from_programme x m).
  split; [|apply get_school_in_keys].
  rewrite <- !app_assoc_str. reflexivity.
Qed.

Lemma process_row_domain_witness :
  process_row "Programme" school_mapping_default 2025 "Sandwich" row_ama
  = Done "amensah25sw@sonam.uhas.edu.gh" /\
  exists local code,
    "amensah25sw@sonam.uhas.edu.gh"
    = local ++ "@" ++ lower code ++ ".uhas.edu.gh"
    /\ (In code (keys school_mapping_default) \/ code = "unknown").
Proof.
  split; [reflexivity|].
  apply (process_row_domain "Programme" school_mapping_default 2025
           "Sandwich" row_ama).
  reflexivity.
Defined.

(** ** Splitting a full name *)

Section Split.

Variable sep : ascii.

Lemma split_not_nil (n : nat) (s : string) : split sep n s <> [].
Proof.
  revert n; induction s as [|c s IH]; intros n; simpl; [discriminate|].
  destruct n as [|k]; [discriminate|].
  destruct (Ascii.eqb c sep); [discriminate|].
  specialize (IH (S k)). now destruct (split sep (S k) s).
Qed.

Lemma join_cons (p : string) (ps : list string) (glue : string) :
  ps <> [] -> join glue (p :: ps) = p ++ glue ++ join glue ps.
Proof. destruct ps; [congruence | reflexivity]. Qed.

Lemma join_cons_head (c : ascii) (parts : list string) (glue : string) :
  parts <> [] ->
  join glue (cons_head c parts) = String c (join glue parts).
Proof.
  destruct parts as [|p [|q ps]]; [congruence | reflexivity | reflexivity].
Qed.

Lemma split_join (n : nat) (s : string) :
  join (String sep EmptyString) (split sep n s) = s.
Proof.
  revert n; induction s as [|c s IH]; intros n; simpl; [reflexivity|].
  destruct n as [|k]; [reflexivity|].
  destruct (Ascii.eqb c sep) eqn:Hc.
  - apply Ascii.eqb_eq in Hc. subst c.
    rewrite join_cons by apply split_not_nil. simpl. now rewrite IH.
  - rewrite join_cons_head by apply split_not_nil. now rewrite IH.
Qed.

Lemma split_length (n : nat) (s : string) :
  (1 <= List.length (split sep n s) <= S n)%nat.
Proof.
  revert n; induction s as [|c s IH]; intros n; simpl; [lia|].
  destruct n as [|k]; simpl; [lia|].
  destruct (Ascii.eqb c sep).
  - specialize (IH k). simpl. lia.
  - specialize (IH (S k)). pose proof (split_not_nil (S k) s) as Hnil.
    destruct (split sep (S k) s); [congruence | simpl in *; lia].
Qed.

(** A string without the separator is left whole. *)
Lemma split_free (n : nat) (s : string) :
  free_of sep s = true -> split sep n s = [s].
Proof.
  induction s as [|c s IH]; simpl; [reflexivity|].
  intros H. apply andb_true_iff in H as [Hc Hs].
  destruct n as [|k]; [reflexivity|].
  apply negb_true_iff in Hc. rewrite Hc. now rewrite IH.
Qed.

(** The first cut is made at the first separator. *)
Lemma split_first (k : nat) (p rest : string) :
  free_of sep p = true ->
  split sep (S k) (p ++ String sep rest) = p :: split sep k rest.
Proof.
  induction p as [|c p IH]; simpl.
  - intros _. now rewrite Ascii.eqb_refl.
  - intros H. apply andb_true_iff in H as [Hc Hp].
    apply negb_true_iff in Hc. rewrite Hc. now rewrite IH.
Qed.

Lemma split_zero (s : string) : split sep 0 s = [s].
Proof. now destruct s. Qed.

End Split.

(** X16.  Splitting a full name loses nothing: the pieces, put together
    again with single spaces, give the name back, and there are between
    one and three of them. *)
Theorem split_name_join (name : string) :
  join " " (split_name name) = name
  /\ (1 <= List.length (split_name name) <= 3)%nat.
Proof.
  split; [apply (split_join " " 2) | apply (split_length " " 2)].
Qed.

(** X17.  How a full name is cut.  A name without a space is one piece.  A
    name with one space gives two pieces.  Otherwise the cuts are made at
    the first two spaces, and all that follows the second one, spaces
    included, is the third piece. *)
Theorem split_name_pieces (first second rest : string) :
  free_of " " first = true -> free_of " " second = true ->
  split_name first = [first]
  /\ split_name (first ++ " " ++ second) = [first; second]
  /\ split_name (first ++ " " ++ second ++ " " ++ rest)
     = [first; second; rest].
Proof.
  intros Hf Hs. unfold split_name. repeat split.
  - now apply split_free.
  - change (first ++ " " ++ second) with (first ++ String " " second).
    rewrite split_first by exact Hf. now rewrite split_free.
  - change (first ++ " " ++ second ++ " " ++ rest)
      with (first ++ String " " (second ++ String " " rest)).
    rewrite split_first by exact Hf. rewrite split_first by exact Hs.
    now rewrite split_zero.
Qed.

Lemma split_name_pieces_witness :
  free_of " " "Ama" = true /\ free_of " " "Kofi" = true /\
  split_name "Ama" = ["Ama"]
  /\ split_name ("Ama" ++ " " ++ "Kofi") = ["Ama"; "Kofi"]
  /\ split_name ("Ama" ++ " " ++ "Kofi" ++ " " ++ "Osei Tutu")
     = ["Ama"; "Kofi"; "Osei Tutu"].
Proof.
  split; [reflexivity|]. split; [reflexivity|].
  apply (split_name_pieces "Ama" "Kofi" "Osei Tutu"); reflexivity.
Defined.

(** ** Letter case *)

Section LetterCase.


Lemma lower_char_space (c : ascii) : is_space c = true -> lower_char c = c.
Proof. destruct c as [[] [] [] [] [] [] [] []]; (reflexivity || discriminate). Qed.



Lemma any_prog_in_lower (s : string) (progs : list string) :
  any_prog_in (PStr (lower s)) (map lower progs) = any_prog_in (PStr s) progs.
Proof.
  unfold any_prog_in. cbn [str].
  induction progs as [|p progs IH]; cbn [map existsb].
  - reflexivity.
  - now rewrite IH, !lower_idem.
Qed.

End LetterCase.


(** X19.  The classifier does not depend on the letter case of the
    programme or of the keywords: lowercasing both beforehand gives the
    same school code.  The code itself is returned as it is written in the
    mapping. *)
Theorem get_school_ignores_case (s : string) (m : mapping) :
  get_school_from_programme (PStr (lower s))
    (map (fun entry => (fst entry, map lower (snd entry))) m)
  = get_school_from_programme (PStr s) m.
Proof.
  induction m as [|[school progs] m IH]; simpl.
  - reflexivity.
  - now rewrite any_prog_in_lower, IH.
Qed.

(** X20.  The middle name is tested after stripping but indexed as it
    stands: when it starts with a whitespace character and holds a name
    after it, that whitespace character is what follows the first initial
    in the address. *)
Theorem middle_leading_space_kept (first : string) (c : ascii)
    (rest last dept : string) (year : Z) (student_type : string) :
  first <> EmptyString ->
  is_space c = true -> all_space rest = false ->
  exists tail,
    generate_email first (Some (String c rest)) last dept year student_type
    = Ok (lower (first_char first) ++ String c tail).
Proof.
  intros Hfirst Hc Hrest. rewrite generate_email_ok by exact Hfirst.
  unfold email_format, middle_initial. cbn [all_space].
  rewrite Hc, Hrest. cbn [andb first_char lower].
  rewrite (lower_char_space c Hc). now eexists.
Qed.

Lemma middle_leading_space_kept_witness :
  "Ama" <> EmptyString /\ is_space " " = true /\ all_space "Kofi" = false /\
  exists tail,
    generate_email "Ama" (Some (String " " "Kofi")) "Mensah" "sph" 2025
      "Regular"
    = Ok (lower (first_char "Ama") ++ String " " tail).
Proof.
  split; [discriminate|]. split; [reflexivity|]. split; [reflexivity|].
  apply (middle_leading_space_kept "Ama" " " "Kofi" "Mensah" "sph" 2025
           "Regular"); [discriminate | reflexivity | reflexivity].
Defined.
